(** * The generator, discriminator and configurator agents

    A shallow embedding of [src/ai-agents/generator.ts] and
    [src/ai-agents/discriminator.ts] (the second file also carries the
    configurator: its history and [suggestNextPrompt]).

    - [JS] holds the part of the JavaScript runtime the agents use: strings
      as sequences of UTF-16 code units, [slice], [trim], [join], numbers,
      values, objects and object spread; [Zod] the schema checks the agents
      declare.
    - [Client] holds the result type of [langchainClient.invoke] and the
      request the agents hand to it; [LangchainClient] the client itself,
      which enforces the declared shape.
    - [Generator], [Discriminator] and [Configurator] follow the three
      agents function by function. [suggestNextPrompt] is cut at its
      [await]: the part that runs when it is called, and the part that runs
      when the answer arrives.
    - [Overlap] lets calls, answers and resets come in any order; [Store]
      keeps the history as an array behind a reference, as the module
      variable and the result of [getHistory] hold it.

    The properties follow in the same order. *)

From Stdlib Require Import ZArith NArith QArith List String Ascii Lia DecimalString.
From stdpp Require Import base list option strings gmap.

Set Warnings "-register-all".
Set Default Proof Using "Type".

Local Open Scope nat_scope.
Local Open Scope list_scope.

(* ================================================================== *)
(** * The JavaScript runtime the agents rely on *)
(* ================================================================== *)

Module JS.

(** ** Strings

    A JavaScript string is a finite sequence of UTF-16 code units;
    [length], [slice] and [trim] all count and cut code units, so the
    "characters" of a string are the elements of this list. *)

Abbreviation jsstring := (list N).

(** An ASCII literal of the source, as code units. *)
Definition lit (s : string) : jsstring :=
  (λ a, N_of_ascii a) <$> list_ascii_of_string s.

(** Code units the source writes with an escape or outside ASCII. *)
Definition LF : N := 10%N.          (* \n *)
Definition DQUOTE : N := 34%N.      (* the double quote *)
Definition EN_DASH : N := 8211%N.   (* U+2013, as in (0–10) *)
Definition EM_DASH : N := 8212%N.   (* U+2014 *)

(** [s.slice(0, n)] for a literal [n >= 0]: the first [n] code units, or
    all of [s] when it is shorter. *)
Definition slice0 (n : nat) (s : jsstring) : jsstring := take n s.

(** WhiteSpace of ECMA-262: TAB, VT, FF, ZWNBSP and the code points of
    general category Zs (all of them in the basic plane). *)
Definition isWhiteSpace (c : N) : bool :=
  ((c =? 9) || (c =? 11) || (c =? 12) || (c =? 65279)
   || (c =? 32) || (c =? 160) || (c =? 5760)
   || ((8192 <=? c) && (c <=? 8202))
   || (c =? 8239) || (c =? 8287) || (c =? 12288))%N.

(** LineTerminator of ECMA-262: LF, CR, LS, PS. *)
Definition isLineTerminator (c : N) : bool :=
  ((c =? 10) || (c =? 13) || (c =? 8232) || (c =? 8233))%N.

Definition isTrimmed (c : N) : bool := isWhiteSpace c || isLineTerminator c.

Fixpoint trimStart (s : jsstring) : jsstring :=
  match s with
  | c :: s' => if isTrimmed c then trimStart s' else s
  | [] => []
  end.

Definition trimEnd (s : jsstring) : jsstring := rev (trimStart (rev s)).

(** [s.trim()]: leading and trailing white space and line terminators go. *)
Definition trim (s : jsstring) : jsstring := trimEnd (trimStart s).

(** [lines.join(sep)]. *)
Fixpoint join (sep : jsstring) (parts : list jsstring) : jsstring :=
  match parts with
  | [] => []
  | [p] => p
  | p :: rest => p ++ sep ++ join sep rest
  end.

(** A string is truthy when it is not empty ([suggested || fallback],
    [cond && suggested]). *)
Definition truthy (s : jsstring) : bool :=
  match s with [] => false | _ :: _ => true end.

(** [s] occurs in [t] as a contiguous run of code units. *)
Definition occurs_in (s t : jsstring) : Prop := ∃ pre post, t = pre ++ s ++ post.

Fixpoint starts_with (s t : jsstring) : bool :=
  match s, t with
  | [], _ => true
  | _ :: _, [] => false
  | a :: s', b :: t' => (a =? b)%N && starts_with s' t'
  end.

(** [t.includes(s)]. *)
Fixpoint includes (s t : jsstring) : bool :=
  starts_with s t || match t with [] => false | _ :: t' => includes s t' end.

(** ** Numbers

    A JavaScript number is NaN, an infinity or a finite value; a finite
    value is held by the rational it denotes (the two zeros are not told
    apart: nothing here observes the sign of zero). *)

Inductive number : Type :=
  | NaN
  | Infinity (negative : bool)
  | Fin (q : Q).

Definition of_Z (z : Z) : number := Fin (inject_Z z).

(** [a < b] of the language: false as soon as one side is NaN. *)
Definition num_lt (a b : number) : bool :=
  match a, b with
  | NaN, _ | _, NaN => false
  | Infinity true, Infinity true => false
  | Infinity true, _ => true
  | Infinity false, _ => false
  | Fin _, Infinity false => true
  | Fin _, Infinity true => false
  | Fin p, Fin q => negb (Qle_bool q p)
  end.

(** The decimal digits of a natural number or an integer. *)
Definition digits (n : nat) : jsstring := lit (NilZero.string_of_uint (Nat.to_uint n)).

Definition digitsZ (z : Z) : jsstring :=
  match z with
  | Z0 => lit "0"
  | Zpos p => digits (Pos.to_nat p)
  | Zneg p => lit "-" ++ digits (Pos.to_nat p)
  end.

(** An integer of magnitude below 2^53 (a safe integer). *)
Definition safe_integer (q : Q) : option Z :=
  let z := (Qnum q / Zpos (Qden q))%Z in
  if Qeq_bool q (inject_Z z) && (Z.abs z <? 2 ^ 53)%Z then Some z else None.

(** Number::toString of ECMA-262 (radix 10), as [`${x}`] applies it. NaN,
    the infinities and the safe integers are printed as the standard says
    (an integer below 2^53 prints as its exact decimal digits); the
    shortest-round-trip digits of every other number are left to [other],
    which the development never inspects. *)
Definition Number_toString (other : Q → jsstring) (x : number) : jsstring :=
  match x with
  | NaN => lit "NaN"
  | Infinity false => lit "Infinity"
  | Infinity true => lit "-Infinity"
  | Fin q =>
      match safe_integer q with
      | Some z => digitsZ z
      | None => other q
      end
  end.

(** ** Values and objects *)

Inductive jsvalue : Type :=
  | JUndefined
  | JNull
  | JBool (b : bool)
  | JNumber (n : number)
  | JString (s : jsstring)
  | JArray (items : list jsvalue)
  | JObject (props : gmap string jsvalue).

(** An object: its own enumerable properties by name. *)
Abbreviation object := (gmap string jsvalue).

(** CopyDataProperties: every own property of [source] is created on (or
    overwrites the one of) [target]. *)
Definition copyDataProperties (target source : object) : object :=
  map_fold (λ k v acc, <[k := v]> acc) target source.

(** The object literal [{ ...a, ...b }]; a spread of [undefined] (an
    argument left out) copies nothing. *)
Definition spread (target : object) (source : option object) : object :=
  match source with
  | Some o => copyDataProperties target o
  | None => target
  end.

End JS.

Import JS.

(* ================================================================== *)
(** * zod: the output shapes the agents declare *)
(* ================================================================== *)

Module Zod.

(** A schema parses a raw value into a validated one, or rejects it. *)
Definition Schema (A : Type) : Type := jsvalue → option A.

(** [z.string()]. *)
Definition z_string : Schema jsstring :=
  λ v, match v with JString s => Some s | _ => None end.

(** [z.number()]: a number that is not NaN. *)
Definition z_number : Schema number :=
  λ v, match v with
       | JNumber NaN => None
       | JNumber n => Some n
       | _ => None
       end.

(** [.min(lo)]: the check fails when [data < lo]. *)
Definition z_min (lo : number) (n : number) : option number :=
  if num_lt n lo then None else Some n.

(** [.max(hi)]: the check fails when [data > hi]. *)
Definition z_max (hi : number) (n : number) : option number :=
  if num_lt hi n then None else Some n.

(** A key of [z.object({...})]: the input has to be an object; a key it
    does not have reads as [undefined]. Keys the shape does not name are
    dropped, since only the named ones are read. *)
Definition z_key (name : string) (v : jsvalue) : option jsvalue :=
  match v with
  | JObject props => Some (default JUndefined (props !! name))
  | _ => None
  end.

End Zod.

(* ================================================================== *)
(** * The boundary to langchainClient *)
(* ================================================================== *)

Module Client.

(** [AIInvokeResult<T>]: [{ success: true, response }] or
    [{ success: false, error }]. *)
Inductive AIInvokeResult (E A : Type) : Type :=
  | Success (response : A)
  | Failure (error : E).
Arguments Success {E A} response.
Arguments Failure {E A} error.

(** The arguments of one [langchainClient.invoke] call, the schema apart. *)
Record Request : Type := {
  modelName : jsstring;
  systemPrompt : jsstring;
  userPrompt : jsstring;
  settings : object;
  modelProvider : jsstring;
}.

(** [langchainClient.invoke], as the agents see it: the outside world
    answers a request, for a declared shape, with a result. *)
Definition Invoke (E A : Type) : Type := Request → Zod.Schema A → AIInvokeResult E A.

End Client.

Import Client.

(* ================================================================== *)
(** * generator.ts *)
(* ================================================================== *)

Module Generator.

Record GeneratorOutput : Type := { text : jsstring }.

(** [z.object({ text: z.string() })]. *)
Definition GeneratorOutputSchema : Zod.Schema GeneratorOutput :=
  λ v, raw ← Zod.z_key "text" v; s ← Zod.z_string raw; Some {| text := s |}.

Definition DEFAULT_MODEL_NAME : jsstring := lit "gpt-4o-mini".
Definition DEFAULT_MODEL_PROVIDER : jsstring := lit "openai".
Definition DEFAULT_SYSTEM_PROMPT : jsstring :=
  lit "You are a generator. Respond with the requested text only.".

Definition DEFAULT_SETTINGS : object :=
  {[ "temperature" := JNumber (Fin (7 # 10));
     "maxTokens" := JNumber (of_Z 1024);
     "timeout" := JNumber (of_Z 30000) ]}.

(** The request [run] hands to the client: [settings] is
    [{ ...DEFAULT_SETTINGS, ...overrides }]. *)
Definition request (prompt : jsstring) (overrides : option object) : Request :=
  {| modelName := DEFAULT_MODEL_NAME;
     systemPrompt := DEFAULT_SYSTEM_PROMPT;
     userPrompt := prompt;
     settings := spread (spread ∅ (Some DEFAULT_SETTINGS)) overrides;
     modelProvider := DEFAULT_MODEL_PROVIDER |}.

Definition run {E : Type} (invoke : Invoke E GeneratorOutput)
    (prompt : jsstring) (overrides : option object) : AIInvokeResult E jsstring :=
  match invoke (request prompt overrides) GeneratorOutputSchema with
  | Success response => Success (text response)
  | Failure error => Failure error
  end.

End Generator.

(* ================================================================== *)
(** * discriminator.ts: the discriminator *)
(* ================================================================== *)

Module Discriminator.

Record DiscriminatorOutput : Type := { score : number }.

(** [z.object({ score: z.number().min(0).max(10) })]. *)
Definition DiscriminatorOutputSchema : Zod.Schema DiscriminatorOutput :=
  λ v, raw ← Zod.z_key "score" v;
       n ← Zod.z_number raw;
       n ← Zod.z_min (of_Z 0) n;
       n ← Zod.z_max (of_Z 10) n;
       Some {| score := n |}.

Definition DEFAULT_MODEL_NAME : jsstring := lit "gpt-4o-mini".
Definition DEFAULT_MODEL_PROVIDER : jsstring := lit "openai".
Definition DEFAULT_SYSTEM_PROMPT : jsstring :=
  concat
    [ lit "You are a discriminator that evaluates how well a generator picked 3 experiences from a CV that best meet given job requirements, and summarized them.";
      [LF; LF];
      lit "You receive:";
      [LF];
      lit "1. The job requirements (what the role is looking for)";
      [LF];
      lit "2. The original instruction to the generator (e.g. pick 3 experiences that best meet the job requirements)";
      [LF];
      lit "3. The full CV (source text)";
      [LF];
      lit "4. The generator's output (exactly 3 experiences with 2-line summaries each)";
      [LF];
      lit "5. Optionally: ";
      [DQUOTE];
      lit "Expected experiences";
      [DQUOTE];
      lit " ";
      [EM_DASH];
      lit " if provided, these are the experiences deemed most correct for this job; treat them as the ultimate ground truth of what is a good selection.";
      [LF; LF];
      lit "Scoring rules (0";
      [EN_DASH];
      lit "10):";
      [LF];
      lit "- The ";
      [DQUOTE];
      lit "expected experiences";
      [DQUOTE];
      lit " (when provided) are the primary standard for what counts as a good selection. The closer the generator's 3 chosen experiences are to these, the higher the score.";
      [LF];
      lit "- Do NOT give a score above 6 unless the generator's chosen experiences significantly overlap with, or are very close variants of, the expected experiences.";
      [LF];
      lit "- 10 = perfect: the generator chose 3 experiences that match the expected experiences extremely well, summaries are accurate to the CV, and the instruction is followed (exactly 3, 2-line summaries).";
      [LF];
      lit "- 0 = very bad: wrong or irrelevant experiences, inaccurate summaries, or instruction not followed (e.g. not 3 experiences, or not tied to job requirements).";
      [LF; LF];
      lit "Be consistent and critical. Consider: fit to job requirements, accuracy vs source CV, and, above all, whether the right experiences were selected according to the expected experiences. When expected experiences are provided, treat them as the ultimate source of truth for what is correct. Only output the score. Be strict; scores above 8 should mean the output is really very good and closely aligned with the expected experiences." ].

Definition DEFAULT_SETTINGS : object :=
  {[ "temperature" := JNumber (Fin (1 # 10));
     "maxTokens" := JNumber (of_Z 64);
     "timeout" := JNumber (of_Z 30000) ]}.

(** Context the discriminator needs; [expectedExperiences] is optional. *)
Record DiscriminatorContext : Type := {
  generatorPrompt : jsstring;
  cvContent : jsstring;
  jobRequirements : jsstring;
  expectedExperiences : option jsstring;
}.

(** [expectedBlock] of [run]: present when the expected experiences are
    given and are not blank. *)
Definition expectedBlock (context : DiscriminatorContext) : jsstring :=
  match expectedExperiences context with
  | Some expected =>
      if truthy (trim expected)
      then concat
        [ [LF; LF];
          lit "---";
          [LF];
          lit "Expected experiences (deemed most correct for this job; score alignment with these):";
          [LF];
          expected ]
      else []
  | None => []
  end.

(** [userPrompt] of [run]. *)
Definition userPrompt (generatorOutput : jsstring) (context : DiscriminatorContext) : jsstring :=
  concat
    [ lit "Job requirements:";
      [LF];
      jobRequirements context;
      [LF; LF];
      lit "---";
      [LF];
      lit "Original instruction to the generator:";
      [LF];
      generatorPrompt context;
      [LF; LF];
      lit "---";
      [LF];
      lit "Source text (CV):";
      [LF];
      cvContent context;
      expectedBlock context;
      [LF; LF];
      lit "---";
      [LF];
      lit "Generator's output (3 experiences + 2-line summaries):";
      [LF];
      generatorOutput;
      [LF; LF];
      lit "Score how well the generator picked 3 experiences that best meet the job requirements and summarised them (0";
      [EN_DASH];
      lit "10)." ].

Definition request (generatorOutput : jsstring) (context : DiscriminatorContext) : Request :=
  {| modelName := DEFAULT_MODEL_NAME;
     systemPrompt := DEFAULT_SYSTEM_PROMPT;
     Client.userPrompt := userPrompt generatorOutput context;
     settings := DEFAULT_SETTINGS;
     modelProvider := DEFAULT_MODEL_PROVIDER |}.

Definition run {E : Type} (invoke : Invoke E DiscriminatorOutput)
    (generatorOutput : jsstring) (context : DiscriminatorContext) : AIInvokeResult E number :=
  match invoke (request generatorOutput context) DiscriminatorOutputSchema with
  | Success response => Success (score response)
  | Failure error => Failure error
  end.

End Discriminator.

(* ================================================================== *)
(** * discriminator.ts: the configurator and its history *)
(* ================================================================== *)

Module Configurator.

Record ConfiguratorOutput : Type := { suggestedPrompt : jsstring }.

(** [z.object({ suggestedPrompt: z.string() })]. *)
Definition ConfiguratorOutputSchema : Zod.Schema ConfiguratorOutput :=
  λ v, raw ← Zod.z_key "suggestedPrompt" v;
       s ← Zod.z_string raw;
       Some {| suggestedPrompt := s |}.

(** One entry in configurator history: a past run and its outcome.
    [generatorConfig] is a [GeneratorConfigSnapshot]; [suggestedNextPrompt]
    is the prompt suggested for the run after this one, if any. *)
Record ConfiguratorHistoryEntry : Type := {
  generatorPrompt : jsstring;
  generatorConfig : object;
  score : number;
  suggestedNextPrompt : option jsstring;
}.

Definition DEFAULT_MODEL_NAME : jsstring := lit "gpt-4o-mini".
Definition DEFAULT_MODEL_PROVIDER : jsstring := lit "openai".
Definition DEFAULT_SYSTEM_PROMPT : jsstring :=
  concat
    [ lit "You are a configurator for a GAN-like setup where the generator picks 3 experiences from a CV that best meet job requirements and summarizes them; the discriminator scores how well the choice and summaries match the job (0";
      [EN_DASH];
      lit "10; 10 = perfect, 0 = very bad).";
      [LF; LF];
      lit "- The generator receives the job requirements, the CV, and an instruction (prompt). Temperature is fixed; only the instruction changes.";
      [LF];
      lit "- Your job: given the generator's instruction that was used, the score from the discriminator, the job requirements, and CV context, suggest a NEW instruction (prompt) for the generator to use on the NEXT run so that the next score is likely to be higher.";
      [LF; LF];
      lit "Consider:";
      [LF];
      lit "- Rephrasing the instruction to stress job requirements (e.g. platform engineering, DevOps, observability, CI/CD, scale).";
      [LF];
      lit "- Asking for different formatting or emphasis (e.g. ";
      [DQUOTE];
      lit "highlight technologies from the job description";
      [DQUOTE];
      lit ", ";
      [DQUOTE];
      lit "focus on developer experience and reliability";
      [DQUOTE];
      lit ").";
      [LF];
      lit "- Use history of past runs: if a certain phrasing led to a higher score, steer toward that; if the discriminator penalized missing criteria, make the next prompt mention those criteria explicitly.";
      [LF];
      lit "- Output only the new instruction text, ready to be used as the generator prompt. Keep it concise (one or two sentences). Do not include the job requirements or CV in your output, only have the instruction." ].

Definition DEFAULT_SETTINGS : object :=
  {[ "temperature" := JNumber (Fin (2 # 10));
     "maxTokens" := JNumber (of_Z 128);
     "timeout" := JNumber (of_Z 30000) ]}.

(** The module variable [history]; it starts as [[]]. Every operation
    below takes its current value and gives back the next one. *)
Abbreviation History := (list ConfiguratorHistoryEntry).

Definition initialHistory : History := [].

Definition getHistory (history : History) : History := history.

Definition clearHistory (history : History) : History := [].

(** The argument object of [suggestNextPrompt]. *)
Module Params.
Record t : Type := {
  generatorPrompt : jsstring;
  generatorConfig : object;
  score : number;
  cvContent : option jsstring;
  jobRequirements : option jsstring;
}.
End Params.

Section SuggestNextPrompt.

(** The digits [`${x}`] gives a number that is not a safe integer. *)
Variable other : Q → jsstring.

(** One element of [history.map((h, i) => ...)]. *)
Definition historyLine (i : nat) (h : ConfiguratorHistoryEntry) : jsstring :=
  let part :=
    concat
      [ lit "Run ";
        digits (i + 1);
        lit ": prompt=";
        [DQUOTE];
        slice0 120 (generatorPrompt h);
        if 120 <? length (generatorPrompt h) then lit "..." else [];
        [DQUOTE];
        lit ", score=";
        Number_toString other (score h) ] in
  match suggestedNextPrompt h with
  | Some suggested =>
      part ++ concat
        [ lit " (suggested next prompt: ";
          [DQUOTE];
          slice0 60 suggested;
          lit "...";
          [DQUOTE];
          lit ")" ]
  | None => part
  end.

Definition historyBlock (history : History) : jsstring :=
  if length history =? 0
  then lit "No previous runs yet."
  else join [LF] (imap historyLine history).

Definition cvBlock (cvContent : option jsstring) : jsstring :=
  match cvContent with
  | Some cvContent =>
      concat
        [ [LF; LF];
          lit "Source CV context (excerpt):";
          [LF];
          slice0 1500 cvContent;
          if 1500 <? length cvContent then lit "..." else [] ]
  | None => []
  end.

Definition jobBlock (jobRequirements : option jsstring) : jsstring :=
  match jobRequirements with
  | Some jobRequirements =>
      concat
        [ [LF; LF];
          lit "Job requirements (excerpt):";
          [LF];
          slice0 1500 jobRequirements;
          if 1500 <? length jobRequirements then lit "..." else [] ]
  | None => []
  end.

(** [userPrompt], built from the parameters and the history as it is once
    the entry of this call has been pushed. *)
Definition userPrompt (params : Params.t) (history : History) : jsstring :=
  concat
    [ lit "History of runs (most recent last):";
      [LF];
      historyBlock history;
      [LF; LF];
      lit "Current run we just got the score for: prompt=";
      [DQUOTE];
      Params.generatorPrompt params;
      [DQUOTE];
      lit ", score=";
      Number_toString other (Params.score params);
      lit ".";
      jobBlock (Params.jobRequirements params);
      cvBlock (Params.cvContent params);
      [LF; LF];
      lit "Suggest the next generator prompt (instruction only, no CV or job text) to maximise the score. Reply with only the new instruction text." ].

Definition request (params : Params.t) (history : History) : Request :=
  {| modelName := DEFAULT_MODEL_NAME;
     systemPrompt := DEFAULT_SYSTEM_PROMPT;
     Client.userPrompt := userPrompt params history;
     settings := DEFAULT_SETTINGS;
     modelProvider := DEFAULT_MODEL_PROVIDER |}.

(** [entry]: the record of this call, with a copy of the configuration
    and no suggestion yet. *)
Definition entry (params : Params.t) : ConfiguratorHistoryEntry :=
  {| generatorPrompt := Params.generatorPrompt params;
     generatorConfig := spread ∅ (Some (Params.generatorConfig params));
     score := Params.score params;
     suggestedNextPrompt := None |}.

(** [suggestNextPrompt] up to its [await]: the entry is pushed, the
    request is built from the history that holds it. *)
Definition suggestNextPrompt_call (params : Params.t) (history : History)
    : History * Request :=
  let history := history ++ [entry params] in
  (history, request params history).

(** [history[history.length - 1].suggestedNextPrompt = suggested]. *)
Definition setLastSuggested (suggested : jsstring) (history : History) : History :=
  alter (λ h, {| generatorPrompt := generatorPrompt h;
                 generatorConfig := generatorConfig h;
                 score := score h;
                 suggestedNextPrompt := Some suggested |})
        (length history - 1) history.

(** [suggestNextPrompt] from its [await] on: [history] is the module
    variable as it is when the result arrives. *)
Definition suggestNextPrompt_resume {E : Type} (params : Params.t)
    (result : AIInvokeResult E ConfiguratorOutput) (history : History)
    : History * AIInvokeResult E jsstring :=
  match result with
  | Success response =>
      let suggested := trim (suggestedPrompt response) in
      let history :=
        if (0 <? length history) && truthy suggested
        then setLastSuggested suggested history
        else history in
      (history, Success (if truthy suggested then suggested
                         else Params.generatorPrompt params))
  | Failure error => (history, Failure error)
  end.

(** A whole call that nothing else interleaves with. *)
Definition suggestNextPrompt {E : Type} (invoke : Invoke E ConfiguratorOutput)
    (params : Params.t) (history : History) : History * AIInvokeResult E jsstring :=
  let '(history, req) := suggestNextPrompt_call params history in
  suggestNextPrompt_resume params (invoke req ConfiguratorOutputSchema) history.

(** Calls made one after the other, each with the answer the outside
    gives to it. *)
Fixpoint suggestNextPrompt_seq {E : Type}
    (calls : list (Invoke E ConfiguratorOutput * Params.t)) (history : History)
    : History * list (AIInvokeResult E jsstring) :=
  match calls with
  | [] => (history, [])
  | (invoke, params) :: calls =>
      let '(history, result) := suggestNextPrompt invoke params history in
      let '(history, results) := suggestNextPrompt_seq calls history in
      (history, result :: results)
  end.

End SuggestNextPrompt.

End Configurator.

(* ================================================================== *)
(** * langchainClient.invoke *)
(* ================================================================== *)

Module LangchainClient.

Section Invoke.

Context {E : Type}.

(** What the hosted model gives back for a request: the call fails, or
    it yields a raw value. *)
Variable model : Request → AIInvokeResult E jsvalue.

(** The failure reported for a raw value that does not have the shape. *)
Variable invalid : jsvalue → E.

(** Modelled from the spec: [langchainClient.invoke], whose file
    ([src/lib/langchain-client]) is not part of the sources. Section 6:
    the collaborator is given the expected output shape and "is
    responsible for enforcing this shape and failing the call if the raw
    result does not conform"; it returns "either the validated
    structured value or an opaque failure description". *)
Definition invoke {A : Type} : Invoke E A :=
  λ req schema,
    match model req with
    | Success raw =>
        match schema raw with
        | Some validated => Success validated
        | None => Failure (invalid raw)
        end
    | Failure error => Failure error
    end.

End Invoke.

End LangchainClient.

(* ================================================================== *)
(** * Calls that overlap *)
(* ================================================================== *)

Module Overlap.

Import Configurator.

Section Events.

Context {E : Type}.
Variable other : Q → jsstring.

(** [suggestNextPrompt] is an async function with one [await]: between a
    call and the arrival of its answer other code of the same thread can
    run. What the [history] variable goes through is a sequence of these
    events: a call runs up to its await; the answer to a pending call
    arrives and the call runs to its end; [clearHistory] is called. *)
Inductive event : Type :=
  | Called (params : Params.t)
  | Answered (params : Params.t) (result : AIInvokeResult E ConfiguratorOutput)
  | Cleared.

Definition step (history : History) (ev : event) : History :=
  match ev with
  | Called params => (suggestNextPrompt_call other params history).1
  | Answered params result => (suggestNextPrompt_resume params result history).1
  | Cleared => clearHistory history
  end.

Definition after (events : list event) (history : History) : History :=
  foldl step history events.

(** The number of calls since the last [clearHistory], on top of [n]. *)
Definition count (n : nat) (ev : event) : nat :=
  match ev with
  | Called _ => S n
  | Answered _ _ => n
  | Cleared => 0
  end.

End Events.

Arguments event : clear implicits.

End Overlap.

(* ================================================================== *)
(** * The history as an array in the heap *)
(* ================================================================== *)

Module Store.

Import Configurator.

(** An array is an object: the module variable [history] holds a
    reference to one, and so does whoever got it from [getHistory]. The
    state is the arrays there are, by reference, and the reference the
    variable holds. *)
Record state : Type := {
  arrays : gmap nat (list ConfiguratorHistoryEntry);
  history : nat;
}.

(** [let history = []]. *)
Definition initial : state := {| arrays := {[ 0 := [] ]}; history := 0 |}.

(** The elements of the array behind a reference. *)
Definition read (ref : nat) (st : state) : History :=
  default [] (arrays st !! ref).

(** The state is well formed when the variable refers to an array. *)
Definition wf (st : state) : Prop := is_Some (arrays st !! history st).

(** [return history]: the reference itself, no copy. *)
Definition getHistory (st : state) : nat := history st.

(** [history = []]: the variable gets a new, empty array; the array it
    referred to is not touched. *)
Definition clearHistory (st : state) : state :=
  let ref := fresh (dom (arrays st)) in
  {| arrays := <[ref := []]> (arrays st); history := ref |}.

(** A change made in place to the array the variable refers to. *)
Definition mutate (f : History → History) (st : state) : state :=
  {| arrays := <[history st := f (read (history st) st)]> (arrays st);
     history := history st |}.

Section Events.

Context {E : Type}.
Variable other : Q → jsstring.

(** The events of [Overlap], on the heap: a call pushes onto the array
    [history] refers to at that moment, an answer writes into the array
    [history] refers to when it arrives. *)
Definition step (st : state) (ev : Overlap.event E) : state :=
  match ev with
  | Overlap.Called params =>
      mutate (λ h, (suggestNextPrompt_call other params h).1) st
  | Overlap.Answered params result =>
      mutate (λ h, (suggestNextPrompt_resume params result h).1) st
  | Overlap.Cleared => clearHistory st
  end.

Definition after (events : list (Overlap.event E)) (st : state) : state :=
  foldl step st events.

End Events.

End Store.

(* ================================================================== *)
(** * Sample inputs *)
(* ================================================================== *)

Module Sample.

(** A model that answers every request with the same raw value. *)
Definition answers (raw : jsvalue) : Request → AIInvokeResult jsstring jsvalue :=
  λ _, Success raw.

(** A model whose call fails. *)
Definition fails (reason : jsstring) : Request → AIInvokeResult jsstring jsvalue :=
  λ _, Failure reason.

Definition invalid : jsvalue → jsstring := λ _, lit "invalid output".

Definition scoreObject (n : number) : jsvalue := JObject {[ "score" := JNumber n ]}.

Definition suggestionObject (s : jsstring) : jsvalue :=
  JObject {[ "suggestedPrompt" := JString s ]}.

Definition context (expected : option jsstring) : Discriminator.DiscriminatorContext :=
  {| Discriminator.generatorPrompt := lit "Pick 3 experiences matching the job.";
     Discriminator.cvContent := lit "2019-2023 Platform engineer; 2016-2019 Backend developer";
     Discriminator.jobRequirements := lit "Senior DevOps engineer, CI/CD, observability";
     Discriminator.expectedExperiences := expected |}.

Definition candidate : jsstring := lit "1. Platform engineer: built the CI/CD pipelines.".

(** The call of the spec's scenario: score 4 for the first instruction. *)
Definition params (cv job : option jsstring) : Configurator.Params.t :=
  {| Configurator.Params.generatorPrompt := lit "Pick 3 experiences matching the job.";
     Configurator.Params.generatorConfig := Generator.DEFAULT_SETTINGS;
     Configurator.Params.score := of_Z 4;
     Configurator.Params.cvContent := cv;
     Configurator.Params.jobRequirements := job |}.

Definition suggestion : jsstring := lit "Emphasize DevOps and CI/CD experience.".

(** The call after it: the suggested instruction, scored 6. *)
Definition nextParams : Configurator.Params.t :=
  {| Configurator.Params.generatorPrompt := suggestion;
     Configurator.Params.generatorConfig := Generator.DEFAULT_SETTINGS;
     Configurator.Params.score := of_Z 6;
     Configurator.Params.cvContent := None;
     Configurator.Params.jobRequirements := None |}.

Definition nextSuggestion : jsstring := lit "Pick the 3 roles with the most observability work.".

(** No number of the samples needs digits beyond those of an integer. *)
Definition other : Q → jsstring := λ _, [].

End Sample.

(* ================================================================== *)
(** * Properties of the runtime *)
(* ================================================================== *)

Section Runtime.

(** A property [source] has wins; any other property of [target] stays. *)
Lemma copyDataProperties_lookup (target source : object) (k : string) :
  copyDataProperties target source !! k =
    match source !! k with
    | Some v => Some v
    | None => target !! k
    end.
Proof.
  unfold copyDataProperties.
  apply (map_fold_weak_ind
           (λ r m, r !! k = match m !! k with Some v => Some v | None => target !! k end)).
  - by rewrite lookup_empty.
  - intros i x m r _ IH. destruct (decide (i = k)) as [->|Hne].
    + by rewrite !lookup_insert_eq.
    + by rewrite !lookup_insert_ne.
Qed.

Lemma copyDataProperties_union (target source : object) :
  copyDataProperties target source = source ∪ target.
Proof.
  apply map_eq; intros k. rewrite copyDataProperties_lookup, lookup_union.
  destruct (source !! k), (target !! k); done.
Qed.

Lemma spread_empty (o : object) : spread ∅ (Some o) = o.
Proof.
  simpl. rewrite copyDataProperties_union. apply (right_id_L ∅ (∪)).
Qed.

Lemma trimStart_suffix (s : jsstring) :
  ∃ pre, s = pre ++ trimStart s ∧ forallb isTrimmed pre = true.
Proof.
  induction s as [|c s [pre [Hs Hpre]]]; simpl.
  - by exists [].
  - destruct (isTrimmed c) eqn:Hc.
    + exists (c :: pre); simpl. rewrite Hc, Hpre. split; [by f_equal | done].
    + by exists [].
Qed.

Lemma trimStart_head (s : jsstring) :
  match trimStart s with
  | c :: _ => isTrimmed c = false
  | [] => True
  end.
Proof.
  induction s as [|c s IH]; simpl; [done|].
  destruct (isTrimmed c) eqn:Hc; [exact IH | exact Hc].
Qed.

Lemma trimStart_all (s : jsstring) :
  forallb isTrimmed s = true → trimStart s = [].
Proof.
  induction s as [|c s IH]; simpl; [done|].
  destruct (isTrimmed c); simpl; [exact IH | done].
Qed.

(** Trimming the front leaves the last code unit where it is. *)
Lemma trimStart_last (s : jsstring) (c : N) :
  isTrimmed c = false → trimStart (s ++ [c]) = trimStart s ++ [c].
Proof.
  intros Hc. induction s as [|d s IH]; simpl.
  - by rewrite Hc.
  - destruct (isTrimmed d); [exact IH | done].
Qed.

(** [trim] cuts a run of white space off each end, and nothing else. *)
Lemma trim_decompose (s : jsstring) :
  ∃ pre post, s = pre ++ trim s ++ post
    ∧ forallb isTrimmed pre = true ∧ forallb isTrimmed post = true.
Proof.
  destruct (trimStart_suffix s) as [pre [Hs Hpre]].
  destruct (trimStart_suffix (rev (trimStart s))) as [post [Hr Hpost]].
  exists pre, (rev post). split; [|split]; [|done|].
  - rewrite Hs at 1. f_equal. unfold trim, trimEnd.
    rewrite <- (rev_involutive (trimStart s)) at 1.
    rewrite Hr at 1. by rewrite rev_app_distr.
  - rewrite forallb_forall in *. intros x Hx. apply Hpost. by apply in_rev.
Qed.

(** What [trim] gives neither starts nor ends with white space. *)
Lemma trim_ends (s : jsstring) :
  match trim s with
  | c :: _ => isTrimmed c = false
  | [] => True
  end
  ∧ match rev (trim s) with
    | c :: _ => isTrimmed c = false
    | [] => True
    end.
Proof.
  unfold trim, trimEnd. split.
  - pose proof (trimStart_head s) as Hhead.
    pose proof (trimStart_head (rev (trimStart s))) as Hlast.
    destruct (trimStart s) as [|c t] eqn:Ht; [done|].
    destruct (trimStart (rev (c :: t))) as [|d u] eqn:Hu.
    + exfalso. simpl in Hu.
      destruct (trimStart_suffix (rev t ++ [c])) as [pre [Hs Hpre]].
      rewrite Hu, app_nil_r in Hs. subst pre.
      rewrite forallb_app in Hpre. simpl in Hpre. rewrite Hhead in Hpre.
      by rewrite andb_false_r in Hpre.
    + simpl in Hu. rewrite trimStart_last in Hu by done.
      assert (rev (d :: u) = c :: rev (removelast (d :: u))) as ->; [|done].
      rewrite <- Hu. rewrite rev_app_distr. simpl. f_equal.
      by rewrite removelast_last.
  - rewrite rev_involutive. apply trimStart_head.
Qed.

(** A string of white space only (the empty one too) trims to nothing,
    and only such a string does. *)
Lemma trim_nil_iff (s : jsstring) :
  trim s = [] ↔ forallb isTrimmed s = true.
Proof.
  split.
  - intros Ht. destruct (trim_decompose s) as [pre [post [Hs [Hpre Hpost]]]].
    rewrite Ht in Hs. rewrite Hs, forallb_app. simpl. by rewrite Hpre, Hpost.
  - intros Hall. unfold trim, trimEnd. by rewrite (trimStart_all s Hall).
Qed.

Lemma truthy_spec (s : jsstring) : truthy s = true ↔ s ≠ [].
Proof. destruct s; simpl; split; congruence. Qed.

Lemma slice0_short (n : nat) (s : jsstring) :
  length s ≤ n → slice0 n s = s.
Proof. intros. unfold slice0. by apply take_ge. Qed.

Lemma includes_spec (s t : jsstring) :
  includes s t = true ↔ occurs_in s t.
Proof.
  assert (Hsw : ∀ s t, starts_with s t = true ↔ ∃ post, t = s ++ post).
  { clear. induction s as [|a s IH]; intros t; simpl.
    - split; [by exists t | done].
    - destruct t as [|b t]; [split; [done | by intros [? ?]]|].
      rewrite andb_true_iff, N.eqb_eq, IH. split.
      + intros [-> [post ->]]. by exists post.
      + intros [post Heq]. injection Heq as -> ->. eauto. }
  induction t as [|b t IH]; simpl.
  - rewrite orb_false_r, Hsw. split.
    + intros [post Heq]. by exists [], post.
    + intros [pre [post Heq]]. symmetry in Heq.
      apply app_eq_nil in Heq as [-> Heq]. apply app_eq_nil in Heq as [-> ->].
      by exists [].
  - rewrite orb_true_iff, Hsw, IH. split.
    + intros [[post ->]|[pre [post ->]]]; [by exists [], post|].
      by exists (b :: pre), post.
    + intros [[|c pre] [post Heq]]; simpl in Heq.
      * left. by exists post.
      * right. injection Heq as -> ->. by exists pre, post.
Qed.

End Runtime.

(* ================================================================== *)
(** * The generator *)
(* ================================================================== *)

Section GeneratorProperties.

Import Generator.

(** C6. The settings [run] hands to the client are the generator's
    defaults (temperature 0.7, maxTokens 1024, timeout 30000 ms) with
    exactly the properties the overrides object has replaced by the
    overrides' values: under every name the merged object holds the
    override when the overrides have that property, and the default
    otherwise (all defaults when no overrides are passed). *)
Theorem generator_settings_merge (prompt : jsstring) (overrides : option object) :
  DEFAULT_SETTINGS !! "temperature" = Some (JNumber (Fin (7 # 10)))
  ∧ DEFAULT_SETTINGS !! "maxTokens" = Some (JNumber (of_Z 1024))
  ∧ DEFAULT_SETTINGS !! "timeout" = Some (JNumber (of_Z 30000))
  ∧ ∀ name : string,
      settings (request prompt overrides) !! name =
        match overrides ≫= (λ o, o !! name) with
        | Some v => Some v
        | None => DEFAULT_SETTINGS !! name
        end.
Proof.
  split; [done|]. split; [done|]. split; [done|].
  intros name. unfold request; simpl settings.
  rewrite copyDataProperties_union, (right_id_L ∅ (∪)).
  destruct overrides as [o|]; simpl; [|done].
  apply copyDataProperties_lookup.
Qed.

End GeneratorProperties.

Section GeneratorRun.

Import Generator.

Context {E : Type}.

(** X1. [run] hands the prompt to the client as it is and mirrors the
    client's answer: a failure comes back with the same error, a success
    with the [text] of the response. *)
Theorem generator_run_result (invoke : Invoke E GeneratorOutput)
    (prompt : jsstring) (overrides : option object) :
  Client.userPrompt (request prompt overrides) = prompt
  ∧ (∀ error,
       run invoke prompt overrides = Failure error ↔
       invoke (request prompt overrides) GeneratorOutputSchema = Failure error)
  ∧ (∀ s,
       run invoke prompt overrides = Success s ↔
       ∃ response,
         invoke (request prompt overrides) GeneratorOutputSchema = Success response
         ∧ text response = s).
Proof.
  unfold run. split; [done|].
  destruct (invoke _ _) as [response|error]; split.
  - intros e; split; intros [=].
  - intros s; split.
    + intros [= <-]. by exists response.
    + by intros (r & [= <-] & <-).
  - intros e; split; by intros [= <-].
  - intros s; split; [intros [=] | by intros (r & [=] & _)].
Qed.

(** X2. Whatever the overrides are, the settings sent have [temperature],
    [maxTokens] and [timeout], and apart from these only what the
    overrides bring. *)
Theorem generator_settings_names (prompt : jsstring) (overrides : object) :
  dom (settings (request prompt (Some overrides))) =
    dom overrides ∪ {[ "temperature"; "maxTokens"; "timeout" ]}.
Proof.
  unfold request; simpl settings.
  rewrite !copyDataProperties_union, (right_id_L ∅ (∪)), dom_union_L.
  by f_equal.
Qed.

(** X3. A property the overrides have with the value [undefined] replaces the
    default by [undefined]: the default is not restored. *)
Theorem generator_undefined_override (prompt : jsstring) (overrides : object)
    (name : string) :
  overrides !! name = Some JUndefined →
  settings (request prompt (Some overrides)) !! name = Some JUndefined.
Proof.
  intros Hundef. unfold request; simpl settings.
  by rewrite copyDataProperties_lookup, Hundef.
Qed.

(** X4. With no overrides, or with an empty overrides object, the settings
    are the defaults. *)
Theorem generator_default_settings (prompt : jsstring) :
  settings (request prompt None) = DEFAULT_SETTINGS
  ∧ settings (request prompt (Some ∅)) = DEFAULT_SETTINGS.
Proof.
  unfold request; simpl settings.
  rewrite !copyDataProperties_union, (right_id_L ∅ (∪)).
  split; [done|]. apply (left_id_L ∅ (∪)).
Qed.

End GeneratorRun.

(* ================================================================== *)
(** * The discriminator *)
(* ================================================================== *)

Section DiscriminatorProperties.

Import Discriminator.

(** The score schema accepts exactly the objects whose [score] is a finite
    number between 0 and 10, and hands that number on as it is. *)
Lemma DiscriminatorOutputSchema_accepts (v : jsvalue) (o : DiscriminatorOutput) :
  DiscriminatorOutputSchema v = Some o ↔
    ∃ props q, v = JObject props
      ∧ props !! "score" = Some (JNumber (Fin q))
      ∧ (0 <= q)%Q ∧ (q <= 10)%Q
      ∧ o = {| score := Fin q |}.
Proof.
  unfold DiscriminatorOutputSchema, Zod.z_key, Zod.z_number, Zod.z_min, Zod.z_max, of_Z.
  split.
  - destruct v as [| | | | | |props]; simpl; try done.
    destruct (props !! "score") as [[| | |[|neg|q]| | |]|] eqn:Hs; simpl; try done.
    + destruct neg; simpl; done.
    + destruct (Qle_bool (inject_Z 0) q) eqn:H0; simpl; [|done].
      destruct (Qle_bool q (inject_Z 10)) eqn:H10; simpl; [|done].
      intros [= <-]. exists props, q.
      apply Qle_bool_iff in H0, H10. done.
  - intros (props & q & -> & Hs & H0 & H10 & ->). simpl. rewrite Hs. simpl.
    apply (Qle_bool_iff (inject_Z 0)) in H0. apply (Qle_bool_iff q (inject_Z 10)) in H10.
    rewrite H0. simpl. by rewrite H10.
Qed.

(** C5. With the client enforcing the declared shape, a score [run]
    returns lies between 0 and 10; a raw answer whose score is a number
    outside that range makes [run] fail with the validation failure; and a
    score that is returned is the raw score itself, never one moved into
    the range. *)
Theorem discriminator_score_in_range {E : Type}
    (model : Request → AIInvokeResult E jsvalue) (invalid : jsvalue → E)
    (generatorOutput : jsstring) (context : DiscriminatorContext) :
  let result := run (LangchainClient.invoke model invalid) generatorOutput context in
  (∀ s, result = Success s → ∃ q, s = Fin q ∧ (0 <= q)%Q ∧ (q <= 10)%Q)
  ∧ (∀ props n,
       model (request generatorOutput context) = Success (JObject props) →
       props !! "score" = Some (JNumber n) →
       (∀ q, n = Fin q → ¬ ((0 <= q)%Q ∧ (q <= 10)%Q)) →
       result = Failure (invalid (JObject props)))
  ∧ (∀ props n s,
       model (request generatorOutput context) = Success (JObject props) →
       props !! "score" = Some (JNumber n) →
       result = Success s → s = n).
Proof.
  unfold run, LangchainClient.invoke. simpl. repeat split.
  - intros s. destruct (model _) as [raw|e]; [|done].
    destruct (DiscriminatorOutputSchema raw) as [o|] eqn:Ho; [|done].
    apply DiscriminatorOutputSchema_accepts in Ho
      as (props & q & -> & _ & H0 & H10 & ->).
    intros [= <-]. by exists q.
  - intros props n -> Hs Hout.
    destruct (DiscriminatorOutputSchema (JObject props)) as [o|] eqn:Ho; [|done].
    apply DiscriminatorOutputSchema_accepts in Ho
      as (props' & q & [= <-] & Hs' & H0 & H10 & ->).
    rewrite Hs in Hs'. injection Hs' as ->. by destruct (Hout q).
  - intros props n s -> Hs.
    destruct (DiscriminatorOutputSchema (JObject props)) as [o|] eqn:Ho; [|done].
    apply DiscriminatorOutputSchema_accepts in Ho
      as (props' & q & [= <-] & Hs' & _ & _ & ->).
    rewrite Hs in Hs'. injection Hs' as ->. by intros [= <-].
Qed.

End DiscriminatorProperties.

Section DiscriminatorRequest.

Import Discriminator.

(** C10. The request of the discriminator carries the job requirements,
    the generator's instruction, the CV and the generator's output whole:
    the prompt is fixed text around the four strings as they were passed
    (and the expected-experiences block), whatever their lengths. *)
Theorem discriminator_request_embeds_in_full :
  ∃ a b c d e : jsstring,
    ∀ (generatorOutput : jsstring) (context : DiscriminatorContext),
      Client.userPrompt (request generatorOutput context) =
        a ++ jobRequirements context
          ++ b ++ generatorPrompt context
          ++ c ++ cvContent context ++ expectedBlock context
          ++ d ++ generatorOutput
          ++ e.
Proof.
  exists (lit "Job requirements:" ++ [LF]).
  exists ([LF; LF] ++ lit "---" ++ [LF]
            ++ lit "Original instruction to the generator:" ++ [LF]).
  exists ([LF; LF] ++ lit "---" ++ [LF] ++ lit "Source text (CV):" ++ [LF]).
  exists ([LF; LF] ++ lit "---" ++ [LF]
            ++ lit "Generator's output (3 experiences + 2-line summaries):" ++ [LF]).
  exists ([LF; LF]
            ++ lit "Score how well the generator picked 3 experiences that best meet the job requirements and summarised them (0"
            ++ [EN_DASH] ++ lit "10).").
  intros generatorOutput context. unfold request, userPrompt.
  cbn [Client.userPrompt concat]. rewrite app_nil_r.
  by rewrite <- ?app_assoc.
Qed.

(** C9, as the claim words it, fails: a reference of one space is not
    empty, and the request has no expected-experiences block. *)
Lemma discriminator_blank_reference_has_no_block :
  ¬ (∀ (generatorOutput : jsstring) (context : DiscriminatorContext),
       (∃ expected, expectedExperiences context = Some expected ∧ expected ≠ []) →
       occurs_in (lit "Expected experiences")
                 (Client.userPrompt (request generatorOutput context))).
Proof.
  intros Hclaim.
  specialize (Hclaim Sample.candidate (Sample.context (Some (lit " ")))).
  apply includes_spec in Hclaim; [by vm_compute in Hclaim|].
  exists (lit " "). by split.
Qed.

(** The prompt of the discriminator for a context without a block, and
    for one whose reference [expected] is embedded. *)
Local Abbreviation prompt_without_reference generatorOutput context :=
  (lit "Job requirements:" ++ [LF] ++ jobRequirements context
     ++ [LF; LF] ++ lit "---" ++ [LF]
     ++ lit "Original instruction to the generator:" ++ [LF]
     ++ generatorPrompt context
     ++ [LF; LF] ++ lit "---" ++ [LF] ++ lit "Source text (CV):" ++ [LF]
     ++ cvContent context
     ++ [LF; LF] ++ lit "---" ++ [LF]
     ++ lit "Generator's output (3 experiences + 2-line summaries):" ++ [LF]
     ++ generatorOutput
     ++ [LF; LF]
     ++ lit "Score how well the generator picked 3 experiences that best meet the job requirements and summarised them (0"
     ++ [EN_DASH] ++ lit "10).").

Local Abbreviation prompt_with_reference generatorOutput context expected :=
  (lit "Job requirements:" ++ [LF] ++ jobRequirements context
     ++ [LF; LF] ++ lit "---" ++ [LF]
     ++ lit "Original instruction to the generator:" ++ [LF]
     ++ generatorPrompt context
     ++ [LF; LF] ++ lit "---" ++ [LF] ++ lit "Source text (CV):" ++ [LF]
     ++ cvContent context
     ++ [LF; LF] ++ lit "---" ++ [LF]
     ++ lit "Expected experiences (deemed most correct for this job; score alignment with these):"
     ++ [LF] ++ expected
     ++ [LF; LF] ++ lit "---" ++ [LF]
     ++ lit "Generator's output (3 experiences + 2-line summaries):" ++ [LF]
     ++ generatorOutput
     ++ [LF; LF]
     ++ lit "Score how well the generator picked 3 experiences that best meet the job requirements and summarised them (0"
     ++ [EN_DASH] ++ lit "10).").

(** The prompt of the request with a reference that is not blank. *)
Lemma request_with_reference (generatorOutput : jsstring)
    (context : DiscriminatorContext) (expected : jsstring) :
  expectedExperiences context = Some expected → trim expected ≠ [] →
  Client.userPrompt (request generatorOutput context)
    = prompt_with_reference generatorOutput context expected.
Proof.
  intros Hsome Htrim. unfold request, userPrompt, expectedBlock.
  apply truthy_spec in Htrim. rewrite Hsome, Htrim.
  cbn [Client.userPrompt concat]. rewrite !app_nil_r.
  by rewrite <- ?app_assoc.
Qed.

(** The prompt of the request has no block exactly when [expectedBlock]
    is empty. *)
Lemma request_without_reference (generatorOutput : jsstring)
    (context : DiscriminatorContext) :
  Client.userPrompt (request generatorOutput context)
    = prompt_without_reference generatorOutput context
  ↔ expectedBlock context = [].
Proof.
  assert (Hparts : Client.userPrompt (request generatorOutput context) =
    (lit "Job requirements:" ++ [LF] ++ jobRequirements context
       ++ [LF; LF] ++ lit "---" ++ [LF]
       ++ lit "Original instruction to the generator:" ++ [LF]
       ++ generatorPrompt context
       ++ [LF; LF] ++ lit "---" ++ [LF] ++ lit "Source text (CV):" ++ [LF]
       ++ cvContent context)
    ++ expectedBlock context
    ++ ([LF; LF] ++ lit "---" ++ [LF]
       ++ lit "Generator's output (3 experiences + 2-line summaries):" ++ [LF]
       ++ generatorOutput
       ++ [LF; LF]
       ++ lit "Score how well the generator picked 3 experiences that best meet the job requirements and summarised them (0"
       ++ [EN_DASH] ++ lit "10).")).
  { unfold request, userPrompt. cbn [Client.userPrompt concat].
    rewrite app_nil_r. by rewrite <- ?app_assoc. }
  rewrite Hparts. split.
  - intros Heq. rewrite <- ?app_assoc in Heq.
    repeat (apply app_inv_head in Heq).
    apply (f_equal length) in Heq. rewrite length_app in Heq.
    destruct (expectedBlock context); [done|simpl in Heq; lia].
  - intros ->. by rewrite <- ?app_assoc.
Qed.

(** C9, amended. The request has the expected-experiences block exactly
    when a reference is given that is not blank (not empty once trimmed).
    With such a reference the prompt of the request holds, between the CV
    and the generator's output, the delimiter line followed by the
    reference as given; with a blank reference or none it holds the job
    requirements, the instruction, the CV and the generator's output and
    nothing else between the fixed lines; and it is other than this last
    form exactly when a reference that is not blank is given. *)
Theorem discriminator_expected_block (generatorOutput : jsstring)
    (context : DiscriminatorContext) :
  (∀ expected,
     expectedExperiences context = Some expected → trim expected ≠ [] →
     Client.userPrompt (request generatorOutput context)
       = prompt_with_reference generatorOutput context expected)
  ∧ ((∀ expected, expectedExperiences context = Some expected → trim expected = []) →
     Client.userPrompt (request generatorOutput context)
       = prompt_without_reference generatorOutput context)
  ∧ (Client.userPrompt (request generatorOutput context)
       ≠ prompt_without_reference generatorOutput context
     ↔ ∃ expected, expectedExperiences context = Some expected ∧ trim expected ≠ []).
Proof.
  split; [apply request_with_reference|]. split.
  - intros Hblank. apply request_without_reference. unfold expectedBlock.
    destruct (expectedExperiences context) as [expected|]; [|done].
    by rewrite (Hblank expected eq_refl).
  - rewrite request_without_reference. unfold expectedBlock.
    destruct (expectedExperiences context) as [expected|].
    + destruct (trim expected) as [|c rest] eqn:Ht; simpl.
      * split; [done|]. intros (e & [= <-] & Hne). by rewrite Ht in Hne.
      * split; [|intros _; cbn [concat]; intros Hnil;
                  by apply (f_equal length) in Hnil].
        intros _. exists expected. by rewrite Ht.
    + split; [done|]. by intros (e & [=] & _).
Qed.

End DiscriminatorRequest.

Section DiscriminatorRun.

Import Discriminator.

Context {E : Type}.

(** X5. [run] mirrors the client's answer: a failure comes back with the same
    error, a success with the [score] of the response; the settings sent
    do not depend on the input. *)
Theorem discriminator_run_result (invoke : Invoke E DiscriminatorOutput)
    (generatorOutput : jsstring) (context : DiscriminatorContext) :
  settings (request generatorOutput context) = DEFAULT_SETTINGS
  ∧ (∀ error,
       run invoke generatorOutput context = Failure error ↔
       invoke (request generatorOutput context) DiscriminatorOutputSchema = Failure error)
  ∧ (∀ n,
       run invoke generatorOutput context = Success n ↔
       ∃ response,
         invoke (request generatorOutput context) DiscriminatorOutputSchema
           = Success response
         ∧ score response = n).
Proof.
  unfold run. split; [done|].
  destruct (invoke _ _) as [response|error]; split.
  - intros e; split; intros [=].
  - intros n; split.
    + intros [= <-]. by exists response.
    + by intros (r & [= <-] & <-).
  - intros e; split; by intros [= <-].
  - intros n; split; [intros [=] | by intros (r & [=] & _)].
Qed.

(** X6. With the client enforcing the shape, [run] succeeds exactly on a raw
    answer that is an object whose [score] is a finite number from 0 to
    10, both ends included; other properties of the object do not
    matter. *)
Theorem discriminator_run_accepts
    (model : Request → AIInvokeResult E jsvalue) (invalid : jsvalue → E)
    (generatorOutput : jsstring) (context : DiscriminatorContext) (n : number) :
  run (LangchainClient.invoke model invalid) generatorOutput context = Success n ↔
    ∃ props q,
      model (request generatorOutput context) = Success (JObject props)
      ∧ props !! "score" = Some (JNumber (Fin q))
      ∧ (0 <= q)%Q ∧ (q <= 10)%Q
      ∧ n = Fin q.
Proof.
  unfold run, LangchainClient.invoke. split.
  - destruct (model _) as [raw|e]; [|done].
    destruct (DiscriminatorOutputSchema raw) as [o|] eqn:Ho; [|done].
    apply DiscriminatorOutputSchema_accepts in Ho
      as (props & q & -> & Hs & H0 & H10 & ->).
    intros [= <-]. by exists props, q.
  - intros (props & q & -> & Hs & H0 & H10 & ->).
    assert (DiscriminatorOutputSchema (JObject props) = Some {| score := Fin q |}) as ->;
      [|done].
    apply DiscriminatorOutputSchema_accepts. by exists props, q.
Qed.

(** X7. A reference that is given counts as absent exactly when it is made of
    white space and line terminators only (the empty reference too): then,
    and only then, the prompt of the request goes from the CV straight to
    the generator's output, with no expected-experiences block. *)
Theorem blank_reference_is_ignored (generatorOutput : jsstring)
    (context : DiscriminatorContext) (expected : jsstring) :
  expectedExperiences context = Some expected →
  (Client.userPrompt (request generatorOutput context) =
     lit "Job requirements:" ++ [LF] ++ jobRequirements context
       ++ [LF; LF] ++ lit "---" ++ [LF]
       ++ lit "Original instruction to the generator:" ++ [LF]
       ++ generatorPrompt context
       ++ [LF; LF] ++ lit "---" ++ [LF] ++ lit "Source text (CV):" ++ [LF]
       ++ cvContent context
       ++ [LF; LF] ++ lit "---" ++ [LF]
       ++ lit "Generator's output (3 experiences + 2-line summaries):" ++ [LF]
       ++ generatorOutput
       ++ [LF; LF]
       ++ lit "Score how well the generator picked 3 experiences that best meet the job requirements and summarised them (0"
       ++ [EN_DASH] ++ lit "10).")
  ↔ forallb isTrimmed expected = true.
Proof.
  intros Hsome. rewrite request_without_reference.
  unfold expectedBlock. rewrite Hsome, <- trim_nil_iff.
  destruct (trim expected) as [|c rest]; simpl; [done|].
  split; [|done]. cbn [concat]. intros Hnil. by apply (f_equal length) in Hnil.
Qed.

End DiscriminatorRun.

(* ================================================================== *)
(** * The configurator *)
(* ================================================================== *)

Section ConfiguratorProperties.

Import Configurator.

Context {E : Type}.
Variable other : Q → jsstring.

(** The entry of a call with the suggestion written into it. *)
Local Abbreviation suggested_entry params suggested :=
  {| generatorPrompt := Params.generatorPrompt params;
     generatorConfig := Params.generatorConfig params;
     score := Params.score params;
     suggestedNextPrompt := Some suggested |}.

Lemma entry_fields (params : Params.t) :
  entry params =
    {| generatorPrompt := Params.generatorPrompt params;
       generatorConfig := Params.generatorConfig params;
       score := Params.score params;
       suggestedNextPrompt := None |}.
Proof. unfold entry. by rewrite spread_empty. Qed.

Lemma setLastSuggested_length (suggested : jsstring) (history : History) :
  length (setLastSuggested suggested history) = length history.
Proof. unfold setLastSuggested. apply length_alter. Qed.

(** The write goes to the last entry, whichever call pushed it. *)
Lemma setLastSuggested_last (suggested : jsstring) (history : History)
    (h : ConfiguratorHistoryEntry) :
  setLastSuggested suggested (history ++ [h]) =
    history ++ [ {| generatorPrompt := generatorPrompt h;
                    generatorConfig := generatorConfig h;
                    score := score h;
                    suggestedNextPrompt := Some suggested |} ].
Proof.
  unfold setLastSuggested. rewrite length_app. simpl.
  replace (length history + 1 - 1) with (length history + 0) by lia.
  by rewrite alter_app_r.
Qed.

Lemma suggestNextPrompt_resume_length (params : Params.t)
    (result : AIInvokeResult E ConfiguratorOutput) (history : History) :
  length (suggestNextPrompt_resume params result history).1 = length history.
Proof.
  unfold suggestNextPrompt_resume. destruct result as [response|error]; simpl; [|done].
  destruct (_ && _); [apply setLastSuggested_length | done].
Qed.

Lemma suggestNextPrompt_length (invoke : Invoke E ConfiguratorOutput)
    (params : Params.t) (history : History) :
  length (suggestNextPrompt other invoke params history).1 = S (length history).
Proof.
  unfold suggestNextPrompt, suggestNextPrompt_call.
  rewrite suggestNextPrompt_resume_length, length_app. simpl. lia.
Qed.

(** C1. Every call pushes exactly one entry, and does so before the
    client is invoked: the history the request is built from already ends
    with the entry, and whatever the client answers leaves the length as
    it is. So after N calls, failed or not, the history is N entries
    longer, and N entries long when it started empty. *)
Theorem history_length_counts_calls :
  (∀ params history,
     (suggestNextPrompt_call other params history).1 = history ++ [entry params])
  ∧ (∀ params (result : AIInvokeResult E ConfiguratorOutput) history,
       length (suggestNextPrompt_resume params result history).1 = length history)
  ∧ (∀ (calls : list (Invoke E ConfiguratorOutput * Params.t)) history,
       length (suggestNextPrompt_seq other calls history).1
         = length history + length calls)
  ∧ (∀ calls : list (Invoke E ConfiguratorOutput * Params.t),
       length (suggestNextPrompt_seq other calls initialHistory).1 = length calls).
Proof.
  assert (Hseq : ∀ (calls : list (Invoke E ConfiguratorOutput * Params.t)) history,
    length (suggestNextPrompt_seq other calls history).1
      = length history + length calls).
  { induction calls as [|[invoke params] calls IH]; intros history; simpl; [lia|].
    pose proof (suggestNextPrompt_length invoke params history) as Hone.
    destruct (suggestNextPrompt other invoke params history) as [history1 result].
    specialize (IH history1).
    destruct (suggestNextPrompt_seq other calls history1) as [history2 results].
    simpl in *. lia. }
  split; [done|]. split; [apply suggestNextPrompt_resume_length|].
  split; [exact Hseq|]. intros calls. by rewrite Hseq.
Qed.

(** C2. When the client answers with a suggestion, the call returns the
    suggestion trimmed and writes it into the entry it has just pushed,
    the last of the history; unless the trimmed suggestion is empty: then
    the call returns the instruction it was given and the entry keeps no
    suggestion. *)
Theorem successful_suggestion (invoke : Invoke E ConfiguratorOutput)
    (params : Params.t) (history : History) (response : ConfiguratorOutput) :
  invoke (request other params (history ++ [entry params])) ConfiguratorOutputSchema
    = Success response →
  let suggested := trim (suggestedPrompt response) in
  (suggested ≠ [] →
     suggestNextPrompt other invoke params history
       = (history ++ [suggested_entry params suggested], Success suggested))
  ∧ (suggested = [] →
     suggestNextPrompt other invoke params history
       = (history ++ [entry params], Success (Params.generatorPrompt params))
     ∧ suggestedNextPrompt (entry params) = None).
Proof.
  intros Hinvoke suggested. unfold suggestNextPrompt, suggestNextPrompt_call.
  rewrite Hinvoke. unfold suggestNextPrompt_resume. fold suggested. split.
  - intros Hne. apply truthy_spec in Hne. rewrite Hne, andb_true_r.
    rewrite length_app. simpl.
    replace (0 <? length history + 1) with true by (symmetry; apply Nat.ltb_lt; lia).
    by rewrite setLastSuggested_last, entry_fields.
  - intros Hnil. rewrite Hnil. simpl. by rewrite andb_false_r.
Qed.

(** C3. When the client fails, the entry pushed at the start of the call
    stays in the history with no suggestion, and the call returns the
    client's failure as it came. *)
Theorem failed_suggestion (invoke : Invoke E ConfiguratorOutput)
    (params : Params.t) (history : History) (error : E) :
  invoke (request other params (history ++ [entry params])) ConfiguratorOutputSchema
    = Failure error →
  suggestNextPrompt other invoke params history
    = (history ++ [entry params], Failure error)
  ∧ suggestedNextPrompt (entry params) = None.
Proof.
  intros Hinvoke. unfold suggestNextPrompt, suggestNextPrompt_call.
  by rewrite Hinvoke.
Qed.

End ConfiguratorProperties.

Section ConfiguratorRequest.

Import Configurator.

(** C7. An excerpt of a text of more than 1500 code units is its first
    1500 code units followed by the marker [...]; an excerpt of a text of
    1500 code units or fewer is the text itself with nothing after it. Both
    hold for the CV and for the job requirements, and the two blocks sit
    in the prompt one after the other, before its closing lines. *)
Theorem excerpt_truncation (text : jsstring) :
  (1500 < length text →
     cvBlock (Some text) =
       [LF; LF] ++ lit "Source CV context (excerpt):" ++ [LF]
         ++ take 1500 text ++ lit "..."
     ∧ jobBlock (Some text) =
         [LF; LF] ++ lit "Job requirements (excerpt):" ++ [LF]
           ++ take 1500 text ++ lit "..."
     ∧ length (take 1500 text) = 1500)
  ∧ (length text ≤ 1500 →
     cvBlock (Some text) =
       [LF; LF] ++ lit "Source CV context (excerpt):" ++ [LF] ++ text
     ∧ jobBlock (Some text) =
         [LF; LF] ++ lit "Job requirements (excerpt):" ++ [LF] ++ text)
  ∧ (∀ other params history, ∃ head,
       userPrompt other params history =
         head ++ jobBlock (Params.jobRequirements params)
              ++ cvBlock (Params.cvContent params)
              ++ [LF; LF]
              ++ lit "Suggest the next generator prompt (instruction only, no CV or job text) to maximise the score. Reply with only the new instruction text.").
Proof.
  split; [|split].
  - intros Hlong. unfold cvBlock, jobBlock, slice0.
    replace (1500 <? length text) with true by (symmetry; by apply Nat.ltb_lt).
    cbn [concat]. rewrite !app_nil_r, length_take.
    split; [by rewrite <- ?app_assoc|]. split; [by rewrite <- ?app_assoc|lia].
  - intros Hshort. unfold cvBlock, jobBlock.
    rewrite (slice0_short 1500 text Hshort).
    replace (1500 <? length text) with false by (symmetry; apply Nat.ltb_ge; lia).
    cbn [concat]. by rewrite !app_nil_r.
  - intros other params history.
    exists (lit "History of runs (most recent last):" ++ [LF]
              ++ historyBlock other history ++ [LF; LF]
              ++ lit "Current run we just got the score for: prompt=" ++ [DQUOTE]
              ++ Params.generatorPrompt params ++ [DQUOTE] ++ lit ", score="
              ++ Number_toString other (Params.score params) ++ lit ".").
    unfold userPrompt. cbn [concat]. rewrite app_nil_r.
    by rewrite <- ?app_assoc.
Qed.

(** C4, on the code. The first call of a session (instruction "Pick 3
    experiences matching the job.", score 4, empty history) sends a
    request that carries the instruction and the score, but whose history
    block is the line of run 1, the call's own entry: the text "No
    previous runs yet." is not in it. *)
Theorem first_call_request (other : Q → jsstring) :
  let req := (suggestNextPrompt_call other (Sample.params None None) initialHistory).2 in
  includes (lit "No previous runs yet.") (Client.userPrompt req) = false
  ∧ Client.userPrompt req =
      concat
        [ lit "History of runs (most recent last):"; [LF];
          lit "Run 1: prompt="; [DQUOTE];
          lit "Pick 3 experiences matching the job."; [DQUOTE];
          lit ", score=4"; [LF; LF];
          lit "Current run we just got the score for: prompt="; [DQUOTE];
          lit "Pick 3 experiences matching the job."; [DQUOTE];
          lit ", score=4."; [LF; LF];
          lit "Suggest the next generator prompt (instruction only, no CV or job text) to maximise the score. Reply with only the new instruction text." ].
Proof. by vm_compute. Qed.

(** C8, on the code. A suggestion of 38 code units, well under 60, is
    shown in the history block in full and still followed by [...]: the
    marker of the suggestion preview does not depend on the length. *)
Theorem short_suggestion_preview (other : Q → jsstring) :
  let invoke :=
    LangchainClient.invoke
      (Sample.answers (Sample.suggestionObject Sample.suggestion)) Sample.invalid in
  let history :=
    (suggestNextPrompt other invoke (Sample.params None None) initialHistory).1 in
  length Sample.suggestion = 38
  ∧ historyBlock other
      (suggestNextPrompt_call other (Sample.params None None) history).1 =
      concat
        [ lit "Run 1: prompt="; [DQUOTE];
          lit "Pick 3 experiences matching the job."; [DQUOTE];
          lit ", score=4 (suggested next prompt: "; [DQUOTE];
          lit "Emphasize DevOps and CI/CD experience."; lit "..."; [DQUOTE];
          lit ")"; [LF];
          lit "Run 2: prompt="; [DQUOTE];
          lit "Pick 3 experiences matching the job."; [DQUOTE];
          lit ", score=4" ].
Proof. by vm_compute. Qed.

End ConfiguratorRequest.

Section HistoryBlock.

Import Configurator.

Variable other : Q → jsstring.

Lemma starts_with_app (s t : jsstring) : starts_with s (s ++ t) = true.
Proof.
  induction s as [|a s IH]; simpl; [done|]. by rewrite N.eqb_refl, IH.
Qed.

Lemma join_head (sep p : jsstring) (rest : list jsstring) :
  ∃ more, join sep (p :: rest) = p ++ more.
Proof.
  destruct rest as [|q rest]; [exists []; by rewrite app_nil_r|].
  by exists (sep ++ join sep (q :: rest)).
Qed.

(** A line of the history block, piece by piece. *)
Lemma historyLine_parts (i : nat) (h : ConfiguratorHistoryEntry) :
  historyLine other i h =
    lit "Run " ++ digits (i + 1) ++ lit ": prompt=" ++ [DQUOTE]
      ++ take 120 (generatorPrompt h)
      ++ (if 120 <? length (generatorPrompt h) then lit "..." else [])
      ++ [DQUOTE] ++ lit ", score=" ++ Number_toString other (score h)
      ++ match suggestedNextPrompt h with
         | Some suggested =>
             lit " (suggested next prompt: " ++ [DQUOTE]
               ++ take 60 suggested ++ lit "..." ++ [DQUOTE] ++ lit ")"
         | None => []
         end.
Proof.
  unfold historyLine, slice0. cbn [concat].
  destruct (suggestedNextPrompt h) as [suggested|]; cbn [concat];
    rewrite ?app_nil_r; by rewrite <- ?app_assoc.
Qed.

(** Once an entry is pushed the history block is the lines of the
    entries, and it begins with the line of run 1. *)
Lemma historyBlock_after_push (history : History) (h : ConfiguratorHistoryEntry) :
  historyBlock other (history ++ [h])
    = join [LF] (imap (historyLine other) (history ++ [h]))
  ∧ ∃ tail, historyBlock other (history ++ [h]) = lit "Run 1: prompt=" ++ tail.
Proof.
  assert (Hblock : historyBlock other (history ++ [h])
            = join [LF] (imap (historyLine other) (history ++ [h]))).
  { unfold historyBlock. rewrite length_app. simpl.
    by replace (length history + 1 =? 0) with false
      by (symmetry; apply Nat.eqb_neq; lia). }
  split; [exact Hblock|]. rewrite Hblock.
  assert (Hfirst : ∃ h0 rest, history ++ [h] = h0 :: rest).
  { destruct history as [|h0 rest]; simpl; eauto. }
  destruct Hfirst as (h0 & rest & ->). rewrite imap_cons.
  assert (Hline : ∃ tail, historyLine other 0 h0 = lit "Run 1: prompt=" ++ tail).
  { rewrite historyLine_parts. eexists.
    change (lit "Run 1: prompt=") with (lit "Run " ++ digits (0 + 1) ++ lit ": prompt=").
    rewrite <- !app_assoc. reflexivity. }
  destruct (join_head [LF] (historyLine other 0 h0)
              (imap (historyLine other ∘ S) rest)) as [more ->].
  destruct Hline as [tail ->]. exists (tail ++ more). by rewrite <- app_assoc.
Qed.

(** X8. The history block in the request of a call never is the placeholder
    "No previous runs yet.": the request is built once the entry of the
    call is in the history, so right after its heading the prompt of the
    request has a line for every entry, the call's own being the last,
    and the first of these lines is the line of run 1. *)
Theorem history_block_has_current_run (params : Params.t) (history : History) :
  let req := (suggestNextPrompt_call other params history).2 in
  let lines := imap (historyLine other) (history ++ [entry params]) in
  (∃ rest,
     Client.userPrompt req =
       lit "History of runs (most recent last):" ++ [LF]
         ++ join [LF] lines
         ++ [LF; LF] ++ lit "Current run we just got the score for: prompt="
         ++ rest)
  ∧ length lines = S (length history)
  ∧ lines !! length history
      = Some (historyLine other (length history) (entry params))
  ∧ starts_with
      (lit "History of runs (most recent last):" ++ [LF] ++ lit "Run 1: prompt=")
      (Client.userPrompt req) = true.
Proof.
  intros req lines. unfold req, lines, suggestNextPrompt_call, request, userPrompt.
  cbn [snd Client.userPrompt concat].
  destruct (historyBlock_after_push history (entry params)) as [Hblock [tail Hrun]].
  split; [|split; [|split]].
  - rewrite Hblock. eexists. rewrite <- ?app_assoc. reflexivity.
  - rewrite length_imap, length_app. simpl. lia.
  - rewrite list_lookup_imap, lookup_app_r by lia.
    by rewrite Nat.sub_diag.
  - rewrite Hrun.
    match goal with
    | |- starts_with ?prefix ?prompt = true =>
        assert (∃ rest, prompt = prefix ++ rest) as [rest ->]
    end; [|apply starts_with_app].
    eexists. rewrite <- ?app_assoc. reflexivity.
Qed.

(** X9. The instruction of a past run is shown whole when it has at most 120
    code units, and as its first 120 code units followed by [...] when it
    has more; in both cases the score of that run follows, and then the
    suggestion recorded for the run, if there is one. *)
Theorem instruction_preview (i : nat) (h : ConfiguratorHistoryEntry) :
  let after_score :=
    match suggestedNextPrompt h with
    | Some suggested =>
        lit " (suggested next prompt: " ++ [DQUOTE]
          ++ take 60 suggested ++ lit "..." ++ [DQUOTE] ++ lit ")"
    | None => []
    end in
  (length (generatorPrompt h) ≤ 120 →
     historyLine other i h =
       lit "Run " ++ digits (i + 1) ++ lit ": prompt=" ++ [DQUOTE]
         ++ generatorPrompt h ++ [DQUOTE] ++ lit ", score="
         ++ Number_toString other (score h) ++ after_score)
  ∧ (120 < length (generatorPrompt h) →
     historyLine other i h =
       lit "Run " ++ digits (i + 1) ++ lit ": prompt=" ++ [DQUOTE]
         ++ take 120 (generatorPrompt h) ++ lit "..." ++ [DQUOTE]
         ++ lit ", score=" ++ Number_toString other (score h) ++ after_score
     ∧ length (take 120 (generatorPrompt h)) = 120).
Proof.
  intros after_score. unfold after_score. rewrite historyLine_parts. split.
  - intros Hshort. rewrite take_ge by done.
    replace (120 <? length (generatorPrompt h)) with false
      by (symmetry; apply Nat.ltb_ge; lia).
    reflexivity.
  - intros Hlong.
    replace (120 <? length (generatorPrompt h)) with true
      by (symmetry; by apply Nat.ltb_lt).
    split; [by rewrite <- ?app_assoc|]. rewrite length_take. lia.
Qed.

(** X10. The suggestion recorded for a past run is shown as its first 60 code
    units followed by [...], whether it has more than 60 or not. *)
Theorem suggestion_preview (i : nat) (h : ConfiguratorHistoryEntry)
    (suggested : jsstring) :
  suggestedNextPrompt h = Some suggested →
  historyLine other i h =
    historyLine other i
      {| generatorPrompt := generatorPrompt h;
         generatorConfig := generatorConfig h;
         score := score h;
         suggestedNextPrompt := None |}
    ++ lit " (suggested next prompt: " ++ [DQUOTE]
    ++ take 60 suggested ++ lit "..." ++ [DQUOTE] ++ lit ")"
  ∧ (length suggested ≤ 60 → take 60 suggested = suggested).
Proof.
  intros Hsome. split; [|intros; by apply take_ge].
  rewrite !historyLine_parts, Hsome. simpl suggestedNextPrompt.
  cbn [generatorPrompt score]. rewrite app_nil_r. by rewrite <- ?app_assoc.
Qed.

(** X11. The instruction of the current run goes into the request whole,
    whatever its length, with its score right after it. *)
Theorem current_run_in_full (params : Params.t) (history : History) :
  occurs_in
    (lit "Current run we just got the score for: prompt=" ++ [DQUOTE]
       ++ Params.generatorPrompt params ++ [DQUOTE] ++ lit ", score="
       ++ Number_toString other (Params.score params) ++ lit ".")
    (userPrompt other params history).
Proof.
  unfold userPrompt. cbn [concat].
  exists (lit "History of runs (most recent last):" ++ [LF]
            ++ historyBlock other history ++ [LF; LF]).
  eexists. rewrite app_nil_r. rewrite <- ?app_assoc. reflexivity.
Qed.

End HistoryBlock.

Section HistoryGrowth.

Import Configurator.

Context {E : Type}.
Variable other : Q → jsstring.

Lemma length_join_ge (sep : jsstring) (parts : list jsstring) (n : nat) :
  Forall (λ p, n ≤ length p) parts → n * length parts ≤ length (join sep parts).
Proof.
  induction 1 as [|p parts Hp Hparts IH]; [simpl; lia|].
  destruct parts as [|q parts]; [simpl; lia|].
  change (join sep (p :: q :: parts)) with (p ++ sep ++ join sep (q :: parts)).
  rewrite !length_app. simpl length in *. lia.
Qed.

Lemma historyLine_length (i : nat) (h : ConfiguratorHistoryEntry) :
  23 ≤ length (historyLine other i h).
Proof.
  rewrite historyLine_parts, !length_app.
  change (length (lit "Run ")) with 4.
  change (length (lit ": prompt=")) with 9.
  change (length (lit ", score=")) with 8.
  change (length [DQUOTE]) with 1. lia.
Qed.

Lemma historyBlock_length (history : History) :
  23 * length history ≤ length (historyBlock other history).
Proof.
  unfold historyBlock. destruct (length history =? 0) eqn:Hlen.
  - apply Nat.eqb_eq in Hlen. rewrite Hlen. lia.
  - rewrite <- (length_imap (historyLine other) history).
    apply length_join_ge, Forall_lookup. intros i line Hline.
    rewrite list_lookup_imap in Hline.
    destruct (history !! i) as [h|]; simpl in Hline; [|done].
    injection Hline as <-. apply historyLine_length.
Qed.

Lemma suggestNextPrompt_seq_length
    (calls : list (Invoke E ConfiguratorOutput * Params.t)) (history : History) :
  length (suggestNextPrompt_seq other calls history).1 = length history + length calls.
Proof.
  revert history. induction calls as [|[invoke params] calls IH]; intros history;
    simpl; [lia|].
  pose proof (suggestNextPrompt_length other invoke params history) as Hone.
  destruct (suggestNextPrompt other invoke params history) as [history1 result].
  specialize (IH history1).
  destruct (suggestNextPrompt_seq other calls history1) as [history2 results].
  simpl in *. lia.
Qed.

(** X12. Nothing caps what a request carries of the history: the request of
    a call made after N earlier calls, on a history that held M entries
    before them, has at least 23 code units for each of the M + N + 1
    entries, so it grows at least linearly with the number of calls. *)
Theorem request_grows_with_calls
    (calls : list (Invoke E ConfiguratorOutput * Params.t)) (history : History)
    (params : Params.t) :
  23 * (length history + length calls + 1)
    ≤ length (Client.userPrompt
                (suggestNextPrompt_call other params
                   (suggestNextPrompt_seq other calls history).1).2).
Proof.
  unfold suggestNextPrompt_call, request, userPrompt.
  cbn [snd Client.userPrompt concat].
  pose proof (historyBlock_length
                ((suggestNextPrompt_seq other calls history).1 ++ [entry params]))
    as Hblock.
  rewrite length_app, suggestNextPrompt_seq_length in Hblock. simpl length in Hblock.
  rewrite (length_app (lit "History of runs (most recent last):")),
    (length_app [LF]), (length_app (historyBlock other _)).
  lia.
Qed.

End HistoryGrowth.

Section Excerpts.

Import Configurator.

(** X13. However long the CV and the job requirements are, their blocks in
    the request have at most 1534 and 1533 code units; a text that is not
    given has an empty block, and with neither text given the prompt of
    the request goes from the score of the current run straight to its
    closing lines. *)
Theorem excerpt_blocks_bounded (cvContent jobRequirements : option jsstring) :
  length (cvBlock cvContent) ≤ 1534 ∧ length (jobBlock jobRequirements) ≤ 1533
  ∧ cvBlock None = [] ∧ jobBlock None = []
  ∧ (∀ other params history,
       Params.cvContent params = None → Params.jobRequirements params = None →
       userPrompt other params history =
         lit "History of runs (most recent last):" ++ [LF]
           ++ historyBlock other history ++ [LF; LF]
           ++ lit "Current run we just got the score for: prompt=" ++ [DQUOTE]
           ++ Params.generatorPrompt params ++ [DQUOTE] ++ lit ", score="
           ++ Number_toString other (Params.score params) ++ lit "."
           ++ [LF; LF]
           ++ lit "Suggest the next generator prompt (instruction only, no CV or job text) to maximise the score. Reply with only the new instruction text.").
Proof.
  split; [|split; [|split; [done|split; [done|]]]].
  - destruct cvContent as [text|]; [|simpl; lia].
    unfold cvBlock, slice0. cbn [concat]. rewrite !length_app, length_take.
    pose proof (Nat.le_min_l 1500 (length text)) as Hmin.
    destruct (1500 <? length text); revert Hmin;
      generalize (1500 `min` length text); intros m Hm; simpl; lia.
  - destruct jobRequirements as [text|]; [|simpl; lia].
    unfold jobBlock, slice0. cbn [concat]. rewrite !length_app, length_take.
    pose proof (Nat.le_min_l 1500 (length text)) as Hmin.
    destruct (1500 <? length text); revert Hmin;
      generalize (1500 `min` length text); intros m Hm; simpl; lia.
  - intros other params history Hcv Hjob. unfold userPrompt.
    rewrite Hcv, Hjob. cbn [concat cvBlock jobBlock]. rewrite app_nil_r.
    by rewrite <- ?app_assoc.
Qed.

End Excerpts.

Section SequentialCalls.

Import Configurator.

Context {E : Type}.
Variable other : Q → jsstring.

Lemma suggestNextPrompt_appends (invoke : Invoke E ConfiguratorOutput)
    (params : Params.t) (history : History) :
  ∃ suggestion,
    (suggestNextPrompt other invoke params history).1 =
      history ++ [ {| generatorPrompt := Params.generatorPrompt params;
                      generatorConfig := Params.generatorConfig params;
                      score := Params.score params;
                      suggestedNextPrompt := suggestion |} ].
Proof.
  unfold suggestNextPrompt, suggestNextPrompt_call, suggestNextPrompt_resume.
  destruct (invoke _ _) as [response|error]; simpl.
  - destruct (_ && _).
    + eexists. by rewrite setLastSuggested_last, entry_fields.
    + exists None. by rewrite entry_fields.
  - exists None. by rewrite entry_fields.
Qed.

(** X14. A call leaves the entries that were there as they are and adds one
    entry after them, holding the instruction, the properties of the
    configuration and the score it was given; only the suggestion of that
    new entry depends on the client's answer, and it is set only when the
    client succeeded. *)
Theorem call_appends_its_entry (invoke : Invoke E ConfiguratorOutput)
    (params : Params.t) (history : History) :
  ∃ suggestion,
    (suggestNextPrompt other invoke params history).1 =
      history ++ [ {| generatorPrompt := Params.generatorPrompt params;
                      generatorConfig := Params.generatorConfig params;
                      score := Params.score params;
                      suggestedNextPrompt := suggestion |} ]
    ∧ (is_Some suggestion →
       ∃ s, (suggestNextPrompt other invoke params history).2 = Success s
            ∧ suggestion = Some s).
Proof.
  unfold suggestNextPrompt, suggestNextPrompt_call, suggestNextPrompt_resume.
  destruct (invoke _ _) as [response|error]; simpl.
  - destruct (truthy (trim (suggestedPrompt response))) eqn:Ht.
    + rewrite length_app. simpl.
      replace (0 <? length history + 1) with true by (symmetry; apply Nat.ltb_lt; lia).
      simpl. eexists. split; [by rewrite setLastSuggested_last, entry_fields|].
      intros _. by eexists.
    + rewrite andb_false_r. exists None. split; [by rewrite entry_fields|].
      by intros [? ?].
  - exists None. split; [by rewrite entry_fields|]. by intros [? ?].
Qed.

(** X15. After calls made one after the other, the history lists their
    instructions and scores in the order of the calls, behind those it
    held before; every call has given its result. *)
Theorem history_keeps_call_order
    (calls : list (Invoke E ConfiguratorOutput * Params.t)) (history : History) :
  generatorPrompt <$> (suggestNextPrompt_seq other calls history).1
    = (generatorPrompt <$> history) ++ ((λ c, Params.generatorPrompt c.2) <$> calls)
  ∧ score <$> (suggestNextPrompt_seq other calls history).1
    = (score <$> history) ++ ((λ c, Params.score c.2) <$> calls)
  ∧ length (suggestNextPrompt_seq other calls history).2 = length calls.
Proof.
  revert history. induction calls as [|[invoke params] calls IH]; intros history.
  - simpl. by rewrite !app_nil_r.
  - simpl. destruct (suggestNextPrompt_appends invoke params history) as [suggestion Hone].
    destruct (suggestNextPrompt other invoke params history) as [history1 result].
    simpl in Hone. subst history1.
    destruct (IH (history ++ [ {| generatorPrompt := Params.generatorPrompt params;
                                  generatorConfig := Params.generatorConfig params;
                                  score := Params.score params;
                                  suggestedNextPrompt := suggestion |} ]))
      as (Hp & Hs & Hr).
    destruct (suggestNextPrompt_seq other calls _) as [history2 results].
    simpl in *. rewrite Hp, Hs, Hr, !fmap_app. simpl.
    by rewrite <- !app_assoc.
Qed.

(** X16. A call that succeeds never returns an empty instruction, unless the
    instruction it was given is empty itself. *)
Theorem returned_instruction_not_empty (invoke : Invoke E ConfiguratorOutput)
    (params : Params.t) (history : History) (s : jsstring) :
  Params.generatorPrompt params ≠ [] →
  (suggestNextPrompt other invoke params history).2 = Success s →
  s ≠ [].
Proof.
  intros Hprompt. unfold suggestNextPrompt, suggestNextPrompt_call, suggestNextPrompt_resume.
  destruct (invoke _ _) as [response|error]; simpl; [|done].
  destruct (truthy (trim (suggestedPrompt response))) eqn:Ht; intros [= <-]; [|done].
  by apply truthy_spec.
Qed.

(** X17. A suggestion that is returned is the client's text without the white
    space and line breaks around it: the text is the suggestion between
    two runs of white space, and the suggestion neither begins nor ends
    with white space. *)
Theorem returned_suggestion_is_trimmed (invoke : Invoke E ConfiguratorOutput)
    (params : Params.t) (history : History) (response : ConfiguratorOutput) :
  invoke (request other params (history ++ [entry params])) ConfiguratorOutputSchema
    = Success response →
  trim (suggestedPrompt response) ≠ [] →
  ∃ s pre post,
    (suggestNextPrompt other invoke params history).2 = Success s
    ∧ suggestedPrompt response = pre ++ s ++ post
    ∧ forallb isTrimmed pre = true ∧ forallb isTrimmed post = true
    ∧ (∀ c, head s = Some c → isTrimmed c = false)
    ∧ (∀ c, last s = Some c → isTrimmed c = false).
Proof.
  intros Hinvoke Hne.
  destruct (trim_decompose (suggestedPrompt response)) as (pre & post & Hdec & Hpre & Hpost).
  exists (trim (suggestedPrompt response)), pre, post.
  split; [|split; [exact Hdec|split; [exact Hpre|split; [exact Hpost|]]]].
  - unfold suggestNextPrompt, suggestNextPrompt_call. rewrite Hinvoke.
    unfold suggestNextPrompt_resume. cbn [snd].
    apply truthy_spec in Hne. by rewrite Hne.
  - destruct (trim_ends (suggestedPrompt response)) as [Hhead Hlast].
    split.
    + intros c Hc. destruct (trim (suggestedPrompt response)); [done|].
      by injection Hc as ->.
    + intros c Hc.
      rewrite <- (rev_involutive (trim (suggestedPrompt response))) in Hc.
      destruct (rev (trim (suggestedPrompt response))) as [|d u]; [done|].
      simpl in Hc. rewrite last_snoc in Hc. by injection Hc as ->.
Qed.

End SequentialCalls.

Section OverlappingCalls.

Import Configurator Overlap.

Context {E : Type}.
Variable other : Q → jsstring.

(** X18. Whatever the order of calls, answers and resets, the history holds as
    many entries as there were calls since the last [clearHistory] (on top
    of those it started with, if it was never cleared): an answer, good or
    bad, never adds or removes an entry. *)
Theorem history_length_under_overlap (events : list (event E))
    (history : History) :
  length (after other events history) = foldl count (length history) events.
Proof.
  unfold after. revert history.
  induction events as [|ev events IH]; intros history; [done|].
  simpl. rewrite IH. f_equal. destruct ev as [params|params result|]; simpl.
  - rewrite length_app. simpl. lia.
  - apply suggestNextPrompt_resume_length.
  - done.
Qed.

(** X19. Two calls that overlap: when both are pending, each answer is written
    into the entry of the later call. The earlier call's entry never gets
    a suggestion, and the later call's entry ends up with the suggestion
    of whichever answer came last, be it the answer to the earlier call. *)
Theorem overlapping_calls_share_last_entry (history : History)
    (first second : Params.t) (answer1 answer2 : ConfiguratorOutput) :
  trim (suggestedPrompt answer1) ≠ [] →
  trim (suggestedPrompt answer2) ≠ [] →
  let entry2 suggested :=
    {| generatorPrompt := Params.generatorPrompt second;
       generatorConfig := Params.generatorConfig second;
       score := Params.score second;
       suggestedNextPrompt := Some suggested |} in
  after (E := E) other
    [ Called first; Called second;
      Answered first (Success answer1); Answered second (Success answer2) ] history
    = history ++ [entry first; entry2 (trim (suggestedPrompt answer2))]
  ∧ after (E := E) other
      [ Called first; Called second;
        Answered second (Success answer2); Answered first (Success answer1) ] history
    = history ++ [entry first; entry2 (trim (suggestedPrompt answer1))]
  ∧ suggestedNextPrompt (entry first) = None.
Proof.
  intros H1 H2 entry2. apply truthy_spec in H1, H2.
  assert (Hwrite : ∀ params answer h,
    truthy (trim (suggestedPrompt answer)) = true →
    (suggestNextPrompt_resume (E := E) params (Success answer)
       (history ++ [entry first; h])).1
    = history ++ [entry first;
                  {| generatorPrompt := generatorPrompt h;
                     generatorConfig := generatorConfig h;
                     score := score h;
                     suggestedNextPrompt := Some (trim (suggestedPrompt answer)) |}]).
  { intros params answer h Ht. unfold suggestNextPrompt_resume. cbn [fst].
    rewrite Ht, andb_true_r, length_app. simpl length.
    replace (0 <? length history + 2) with true by (symmetry; apply Nat.ltb_lt; lia).
    change (history ++ [entry first; h]) with (history ++ [entry first] ++ [h]).
    rewrite app_assoc, setLastSuggested_last. by rewrite <- app_assoc. }
  unfold after. cbn [foldl step suggestNextPrompt_call fst].
  rewrite <- !app_assoc. cbn [app].
  split; [|split; [|done]].
  - rewrite (Hwrite first answer1 _ H1), (Hwrite second answer2 _ H2).
    by rewrite (entry_fields second).
  - rewrite (Hwrite second answer2 _ H2), (Hwrite first answer1 _ H1).
    by rewrite (entry_fields second).
Qed.

(** X20. A reset while a call is pending: when the answer arrives the history
    is empty, so the suggestion is returned but recorded nowhere, and the
    history stays empty. *)
Theorem answer_after_clear (params : Params.t) (history : History)
    (result : AIInvokeResult E ConfiguratorOutput) :
  after other [Called params; Cleared; Answered params result] history = []
  ∧ (∀ answer, result = Success answer →
       (suggestNextPrompt_resume params result
          (after (E := E) other [Called params; Cleared] history)).2
       = Success (if truthy (trim (suggestedPrompt answer))
                  then trim (suggestedPrompt answer)
                  else Params.generatorPrompt params)).
Proof.
  unfold after. cbn [foldl step clearHistory]. split.
  - by destruct result.
  - by intros answer ->.
Qed.

End OverlappingCalls.

Section HistoryInTheHeap.

Import Configurator.

Context {E : Type}.
Variable other : Q → jsstring.

Lemma read_mutate_same (f : History → History) (st : Store.state) :
  Store.read (Store.history st) (Store.mutate f st)
    = f (Store.read (Store.history st) st).
Proof. unfold Store.read, Store.mutate. simpl. by rewrite lookup_insert_eq. Qed.

Lemma read_mutate_other (f : History → History) (st : Store.state) (ref : nat) :
  ref ≠ Store.history st →
  Store.read ref (Store.mutate f st) = Store.read ref st.
Proof.
  intros Hne. unfold Store.read, Store.mutate. simpl.
  by rewrite lookup_insert_ne.
Qed.

Lemma clearHistory_fresh (st : Store.state) :
  Store.arrays st !! Store.history (Store.clearHistory st) = None.
Proof.
  unfold Store.clearHistory. simpl. apply not_elem_of_dom, is_fresh.
Qed.

(** X22. What [getHistory] returns is the array itself, not a snapshot: read
    after a later call it shows the entry the call pushed, and read after
    the answer it shows the suggestion written into that entry. *)
Theorem getHistory_is_live (st : Store.state) (params : Params.t)
    (answer : ConfiguratorOutput) :
  trim (suggestedPrompt answer) ≠ [] →
  let ref := Store.getHistory st in
  Store.read ref (Store.after (E := E) other [Overlap.Called params] st)
    = Store.read ref st ++ [entry params]
  ∧ Store.read ref
      (Store.after (E := E) other
         [Overlap.Called params; Overlap.Answered params (Success answer)] st)
    = Store.read ref st
        ++ [ {| generatorPrompt := Params.generatorPrompt params;
                generatorConfig := Params.generatorConfig params;
                score := Params.score params;
                suggestedNextPrompt := Some (trim (suggestedPrompt answer)) |} ].
Proof.
  intros Hne ref. unfold Store.after. cbn [foldl Store.step].
  unfold ref, Store.getHistory. split.
  - by rewrite read_mutate_same.
  - pose proof (read_mutate_same
        (λ h, (suggestNextPrompt_resume (E := E) params (Success answer) h).1)
        (Store.mutate (λ h, (suggestNextPrompt_call other params h).1) st)) as Hanswer.
    change (Store.history (Store.mutate _ st)) with (Store.history st) in Hanswer.
    rewrite Hanswer, read_mutate_same.
    unfold suggestNextPrompt_call, suggestNextPrompt_resume. cbn [fst].
    apply truthy_spec in Hne. rewrite Hne, andb_true_r, length_app. simpl length.
    replace (0 <? length (Store.read (Store.history st) st) + 1) with true
      by (symmetry; apply Nat.ltb_lt; lia).
    by rewrite setLastSuggested_last, entry_fields.
Qed.

(** X23. [clearHistory] does not empty the array it replaces: whoever holds the
    old array keeps seeing its entries, and nothing that happens later
    changes it, while the variable refers to another array, which starts
    empty. *)
Theorem cleared_array_is_detached (st : Store.state)
    (events : list (Overlap.event E)) :
  Store.wf st →
  let ref := Store.getHistory st in
  Store.read ref (Store.after other events (Store.clearHistory st)) = Store.read ref st
  ∧ Store.getHistory (Store.after other events (Store.clearHistory st)) ≠ ref
  ∧ Store.read (Store.getHistory (Store.clearHistory st)) (Store.clearHistory st) = [].
Proof.
  intros Hwf ref. unfold Store.getHistory in *.
  assert (Hinv : ∀ (events : list (Overlap.event E)) st',
    is_Some (Store.arrays st' !! ref) → Store.history st' ≠ ref →
    Store.read ref (Store.after other events st') = Store.read ref st'
    ∧ Store.history (Store.after other events st') ≠ ref).
  { clear. unfold Store.after.
    induction events as [|ev events IH]; intros st' Hdom Hne; [done|].
    simpl.
    assert (is_Some (Store.arrays (Store.step other st' ev) !! ref)
            ∧ Store.history (Store.step other st' ev) ≠ ref
            ∧ Store.read ref (Store.step other st' ev) = Store.read ref st')
      as (Hdom' & Hne' & Hread).
    { destruct ev as [params|params result|]; simpl.
      - split; [|split; [done|by apply read_mutate_other]].
        by rewrite lookup_insert_ne.
      - split; [|split; [done|by apply read_mutate_other]].
        by rewrite lookup_insert_ne.
      - assert (fresh (dom (Store.arrays st')) ≠ ref) as Hfresh.
        { intros Heq. pose proof (clearHistory_fresh st') as Hnone.
          unfold Store.clearHistory in Hnone. simpl in Hnone.
          rewrite Heq in Hnone. rewrite Hnone in Hdom. by destruct Hdom. }
        split; [by rewrite lookup_insert_ne|]. split; [done|].
        unfold Store.read. simpl. by rewrite lookup_insert_ne. }
    destruct (IH _ Hdom' Hne') as [Hr Hh]. split; [by rewrite Hr|done]. }
  assert (Hfresh : Store.history (Store.clearHistory st) ≠ ref).
  { intros Heq. pose proof (clearHistory_fresh st) as Hnone.
    rewrite Heq in Hnone. unfold Store.wf in Hwf. fold ref in Hwf.
    rewrite Hnone in Hwf. by destruct Hwf. }
  assert (Hdom : is_Some (Store.arrays (Store.clearHistory st) !! ref)).
  { unfold Store.clearHistory. simpl. rewrite lookup_insert_ne; [exact Hwf|].
    exact Hfresh. }
  destruct (Hinv events _ Hdom Hfresh) as [Hread Hhist].
  split; [|split; [exact Hhist|]].
  - rewrite Hread. unfold Store.read, Store.clearHistory. simpl.
    rewrite lookup_insert_ne; [done|exact Hfresh].
  - unfold Store.read, Store.clearHistory. simpl. by rewrite lookup_insert_eq.
Qed.

End HistoryInTheHeap.

(* ================================================================== *)
(** * The theorems at sample inputs *)
(* ================================================================== *)

Section Instances.

Import Configurator.

(** A score of 7 comes back as 7; a score of 11 is refused. *)
Lemma discriminator_score_in_range_sample :
  (∃ q, of_Z 7 = Fin q ∧ (0 <= q)%Q ∧ (q <= 10)%Q)
  ∧ Discriminator.run
      (LangchainClient.invoke (Sample.answers (Sample.scoreObject (of_Z 11))) Sample.invalid)
      Sample.candidate (Sample.context None)
    = Failure (Sample.invalid (Sample.scoreObject (of_Z 11))).
Proof.
  split.
  - destruct (discriminator_score_in_range
                (Sample.answers (Sample.scoreObject (of_Z 7))) Sample.invalid
                Sample.candidate (Sample.context None)) as [Hin _].
    apply Hin. reflexivity.
  - destruct (discriminator_score_in_range
                (Sample.answers (Sample.scoreObject (of_Z 11))) Sample.invalid
                Sample.candidate (Sample.context None)) as (_ & Hout & _).
    apply (Hout _ (of_Z 11)); [reflexivity | reflexivity |].
    intros q [= <-] [_ Hle]. vm_compute in Hle. by apply Hle.
Defined.

(** A reference that is given shows up in the request after its
    delimiter, between the CV and the generator's output. *)
Lemma discriminator_expected_block_sample :
  Client.userPrompt
    (Discriminator.request Sample.candidate
       (Sample.context (Some (lit "Platform engineer 2019-2023")))) =
    lit "Job requirements:" ++ [LF]
      ++ lit "Senior DevOps engineer, CI/CD, observability"
      ++ [LF; LF] ++ lit "---" ++ [LF]
      ++ lit "Original instruction to the generator:" ++ [LF]
      ++ lit "Pick 3 experiences matching the job."
      ++ [LF; LF] ++ lit "---" ++ [LF] ++ lit "Source text (CV):" ++ [LF]
      ++ lit "2019-2023 Platform engineer; 2016-2019 Backend developer"
      ++ [LF; LF] ++ lit "---" ++ [LF]
      ++ lit "Expected experiences (deemed most correct for this job; score alignment with these):"
      ++ [LF] ++ lit "Platform engineer 2019-2023"
      ++ [LF; LF] ++ lit "---" ++ [LF]
      ++ lit "Generator's output (3 experiences + 2-line summaries):" ++ [LF]
      ++ lit "1. Platform engineer: built the CI/CD pipelines."
      ++ [LF; LF]
      ++ lit "Score how well the generator picked 3 experiences that best meet the job requirements and summarised them (0"
      ++ [EN_DASH] ++ lit "10).".
Proof.
  destruct (discriminator_expected_block Sample.candidate
              (Sample.context (Some (lit "Platform engineer 2019-2023"))))
    as (Hblock & _ & _).
  apply (Hblock (lit "Platform engineer 2019-2023")); [reflexivity | by vm_compute].
Defined.

(** The suggestion of the scenario, sent back with white space around it. *)
Lemma successful_suggestion_sample :
  suggestNextPrompt Sample.other
    (LangchainClient.invoke
       (Sample.answers (Sample.suggestionObject (lit "  " ++ Sample.suggestion ++ [LF])))
       Sample.invalid)
    (Sample.params None None) initialHistory
  = ([ {| generatorPrompt := lit "Pick 3 experiences matching the job.";
          generatorConfig := Generator.DEFAULT_SETTINGS;
          score := of_Z 4;
          suggestedNextPrompt := Some Sample.suggestion |} ],
     Success Sample.suggestion)
  ∧ suggestNextPrompt Sample.other
      (LangchainClient.invoke
         (Sample.answers (Sample.suggestionObject (lit "  " ++ [LF]))) Sample.invalid)
      (Sample.params None None) initialHistory
    = ([entry (Sample.params None None)],
       Success (lit "Pick 3 experiences matching the job.")).
Proof.
  split.
  - destruct (successful_suggestion Sample.other
                (LangchainClient.invoke
                   (Sample.answers
                      (Sample.suggestionObject (lit "  " ++ Sample.suggestion ++ [LF])))
                   Sample.invalid)
                (Sample.params None None) initialHistory
                {| suggestedPrompt := lit "  " ++ Sample.suggestion ++ [LF] |}
                eq_refl) as [Hsome _].
    apply Hsome. by vm_compute.
  - destruct (successful_suggestion Sample.other
                (LangchainClient.invoke
                   (Sample.answers (Sample.suggestionObject (lit "  " ++ [LF])))
                   Sample.invalid)
                (Sample.params None None) initialHistory
                {| suggestedPrompt := lit "  " ++ [LF] |}
                eq_refl) as [_ Hnone].
    apply Hnone. reflexivity.
Defined.

(** A call the client fails. *)
Lemma failed_suggestion_sample :
  suggestNextPrompt Sample.other
    (LangchainClient.invoke (Sample.fails (lit "timeout")) Sample.invalid)
    (Sample.params None None) initialHistory
  = ([entry (Sample.params None None)], Failure (lit "timeout"))
  ∧ suggestedNextPrompt (entry (Sample.params None None)) = None.
Proof.
  apply (failed_suggestion Sample.other
           (LangchainClient.invoke (Sample.fails (lit "timeout")) Sample.invalid)
           (Sample.params None None) initialHistory (lit "timeout")).
  reflexivity.
Defined.

(** A text of 1501 code units is cut, a text of 3 is not. *)
Lemma excerpt_truncation_sample :
  cvBlock (Some (replicate 1501 97%N)) =
    [LF; LF] ++ lit "Source CV context (excerpt):" ++ [LF]
      ++ replicate 1500 97%N ++ lit "..."
  ∧ jobBlock (Some (lit "Go.")) =
      [LF; LF] ++ lit "Job requirements (excerpt):" ++ [LF] ++ lit "Go.".
Proof.
  split.
  - destruct (excerpt_truncation (replicate 1501 97%N)) as [Hlong _].
    destruct Hlong as [Hcv _]; [|exact Hcv].
    apply Nat.ltb_lt. reflexivity.
  - destruct (excerpt_truncation (lit "Go.")) as (_ & Hshort & _).
    destruct Hshort as [_ Hjob]; [|exact Hjob].
    simpl. lia.
Defined.


(** [run(prompt, { temperature: undefined })]. *)
Lemma generator_undefined_override_sample :
  settings (Generator.request (lit "Summarise.") (Some {[ "temperature" := JUndefined ]}))
    !! "temperature" = Some JUndefined.
Proof.
  apply (generator_undefined_override (lit "Summarise.")
           {[ "temperature" := JUndefined ]} "temperature").
  reflexivity.
Defined.

(** The line of a run whose suggestion has 38 code units. *)
Lemma suggestion_preview_sample :
  historyLine Sample.other 0
    {| generatorPrompt := lit "Pick 3 experiences matching the job.";
       generatorConfig := Generator.DEFAULT_SETTINGS;
       score := of_Z 4;
       suggestedNextPrompt := Some Sample.suggestion |}
  = historyLine Sample.other 0
      {| generatorPrompt := lit "Pick 3 experiences matching the job.";
         generatorConfig := Generator.DEFAULT_SETTINGS;
         score := of_Z 4;
         suggestedNextPrompt := None |}
    ++ lit " (suggested next prompt: " ++ [DQUOTE]
    ++ take 60 Sample.suggestion ++ lit "..." ++ [DQUOTE] ++ lit ")".
Proof.
  apply (suggestion_preview Sample.other 0
           {| generatorPrompt := lit "Pick 3 experiences matching the job.";
              generatorConfig := Generator.DEFAULT_SETTINGS;
              score := of_Z 4;
              suggestedNextPrompt := Some Sample.suggestion |}
           Sample.suggestion).
  reflexivity.
Defined.

(** A blank answer gives the instruction back, which is not empty. *)
Lemma returned_instruction_not_empty_sample :
  lit "Pick 3 experiences matching the job." ≠ [].
Proof.
  apply (returned_instruction_not_empty Sample.other
           (LangchainClient.invoke
              (Sample.answers (Sample.suggestionObject (lit "  " ++ [LF]))) Sample.invalid)
           (Sample.params None None) initialHistory).
  - by vm_compute.
  - reflexivity.
Defined.

(** The suggestion of the scenario between two spaces and a line break. *)
Lemma returned_suggestion_is_trimmed_sample :
  ∃ s pre post,
    (suggestNextPrompt Sample.other
       (LangchainClient.invoke
          (Sample.answers (Sample.suggestionObject (lit "  " ++ Sample.suggestion ++ [LF])))
          Sample.invalid)
       (Sample.params None None) initialHistory).2 = Success s
    ∧ lit "  " ++ Sample.suggestion ++ [LF] = pre ++ s ++ post
    ∧ forallb isTrimmed pre = true ∧ forallb isTrimmed post = true
    ∧ (∀ c, head s = Some c → isTrimmed c = false)
    ∧ (∀ c, last s = Some c → isTrimmed c = false).
Proof.
  apply (returned_suggestion_is_trimmed Sample.other
           (LangchainClient.invoke
              (Sample.answers
                 (Sample.suggestionObject (lit "  " ++ Sample.suggestion ++ [LF])))
              Sample.invalid)
           (Sample.params None None) initialHistory
           {| suggestedPrompt := lit "  " ++ Sample.suggestion ++ [LF] |}).
  - reflexivity.
  - by vm_compute.
Defined.

(** Two calls in flight, answered in the order they were made. *)
Lemma overlapping_calls_sample :
  Overlap.after (E := jsstring) Sample.other
    [ Overlap.Called (Sample.params None None);
      Overlap.Called Sample.nextParams;
      Overlap.Answered (Sample.params None None)
        (Success {| suggestedPrompt := Sample.suggestion |});
      Overlap.Answered Sample.nextParams
        (Success {| suggestedPrompt := Sample.nextSuggestion |}) ]
    initialHistory
  = [ entry (Sample.params None None);
      {| generatorPrompt := Sample.suggestion;
         generatorConfig := Generator.DEFAULT_SETTINGS;
         score := of_Z 6;
         suggestedNextPrompt := Some Sample.nextSuggestion |} ].
Proof.
  destruct (overlapping_calls_share_last_entry (E := jsstring) Sample.other initialHistory
              (Sample.params None None) Sample.nextParams
              {| suggestedPrompt := Sample.suggestion |}
              {| suggestedPrompt := Sample.nextSuggestion |}) as [Hboth _].
  - by vm_compute.
  - by vm_compute.
  - exact Hboth.
Defined.

(** The array of a fresh module, read through the reference [getHistory]
    gave before the first call. *)
Lemma getHistory_is_live_sample :
  Store.read (Store.getHistory Store.initial)
    (Store.after (E := jsstring) Sample.other
       [Overlap.Called (Sample.params None None)] Store.initial)
  = [entry (Sample.params None None)].
Proof.
  destruct (getHistory_is_live (E := jsstring) Sample.other Store.initial
              (Sample.params None None)
              {| suggestedPrompt := Sample.suggestion |}) as [Hlive _].
  - by vm_compute.
  - exact Hlive.
Defined.

(** A first array with one entry, then a reset and a new call: the first
    array still holds its entry, and only that. *)
Lemma cleared_array_is_detached_sample :
  let st :=
    Store.after (E := jsstring) Sample.other
      [Overlap.Called (Sample.params None None)] Store.initial in
  Store.read (Store.getHistory st)
    (Store.after (E := jsstring) Sample.other
       [Overlap.Called Sample.nextParams] (Store.clearHistory st))
  = [entry (Sample.params None None)].
Proof.
  intros st.
  destruct (cleared_array_is_detached (E := jsstring) Sample.other st
              [Overlap.Called Sample.nextParams]) as [Hread _].
  - unfold Store.wf. vm_compute. by eexists.
  - rewrite Hread. by vm_compute.
Defined.

(** A reference of a space, a tab and a line break. *)
Lemma blank_reference_is_ignored_sample :
  Client.userPrompt
    (Discriminator.request Sample.candidate (Sample.context (Some [32%N; 9%N; LF])))
  = Client.userPrompt (Discriminator.request Sample.candidate (Sample.context None)).
Proof.
  apply (blank_reference_is_ignored Sample.candidate
           (Sample.context (Some [32%N; 9%N; LF])) [32%N; 9%N; LF] eq_refl).
  reflexivity.
Defined.

End Instances.
